(** * Wallet risk scoring: a verified model of [calculate_risk_score]

    Shallow embedding of the scoring stage of [src/main.py]
    ([calculate_risk_score], lines 253-287) together with the part of
    scikit-learn's [MinMaxScaler] and of NumPy that it calls.

    Numbers: Python floats are modelled by exact rationals ([Q]); every
    arithmetic operation of the source is the corresponding exact
    operation, comparisons are comparisons of rationals ([==] is [Qeq]).
    Rounding of binary floating point is therefore outside the model, and
    the theorems are limited to what rounding keeps: the order of values,
    exact zeros and ties between values computed the same way, the ends of
    the reporting range, the shape of the result and integer counts. Apart
    from such exact cases no theorem gives the value of a quotient or of a
    sum of floats.
    The only place where a float constant matters is the machine epsilon
    used by the scaler to detect constant columns; it is the exact
    rational [2^-52]. *)

From Stdlib Require Import String.
From Stdlib Require Import QArith Qminmax Qround ZArith List Bool.
From Stdlib Require Import Ascii DecimalString.
From Stdlib Require Import Lia Lqa Permutation Morphisms Setoid.
Import ListNotations.

Open Scope Q_scope.

(** ** Exceptions and the error monad *)

(** The only exception the scoring path can raise on a well-typed frame is
    the [ValueError] of an empty array (the scaler's input validation, and
    NumPy's reductions of a zero-size array). *)
Inductive exn : Set := ValueError.

Inductive result (A : Type) : Type :=
| Ok (a : A)
| Raise (e : exn).
Arguments Ok {A} a.
Arguments Raise {A} e.

Definition bind {A B : Type} (m : result A) (k : A -> result B) : result B :=
  match m with
  | Ok a => k a
  | Raise e => Raise e
  end.

Notation "x <- m ;; k" := (bind m (fun x => k))
  (at level 61, m at next level, right associativity).

(** ** Data model *)

(** The seven numeric columns of a feature frame. *)
Module Col.
Inductive t : Set :=
| borrow_count
| repayment_ratio
| collateral_ratio
| liquidation_count
| total_volume
| activity_level
| no_compound_activity.
End Col.

(** One dictionary returned by [extract_features]: a row of the frame. *)
Record FeatureRecord : Type := mkFeatureRecord {
  wallet_id : string;
  borrow_count : Q;
  repayment_ratio : Q;
  collateral_ratio : Q;
  liquidation_count : Q;
  total_volume : Q;
  activity_level : Q;
  no_compound_activity : Q
}.

(** [row[column]] *)
Definition get (r : FeatureRecord) (c : Col.t) : Q :=
  match c with
  | Col.borrow_count => borrow_count r
  | Col.repayment_ratio => repayment_ratio r
  | Col.collateral_ratio => collateral_ratio r
  | Col.liquidation_count => liquidation_count r
  | Col.total_volume => total_volume r
  | Col.activity_level => activity_level r
  | Col.no_compound_activity => no_compound_activity r
  end.

(** The frame handed to [calculate_risk_score]. It is a mutable object
    shared with the caller: besides the rows built from the feature
    dictionaries it may carry a ["score"] column, which the scorer
    assigns. *)
Record DataFrame : Type := mkDataFrame {
  rows : list FeatureRecord;
  score : option (list Z)
}.

(** [pd.DataFrame(features_list)]: no ["score"] column yet. For an empty
    list pandas builds a frame without any column, on which the scorer
    fails with a [KeyError] at the column selection instead of the scaler's
    [ValueError]; the model has one failure for both. *)
Definition DataFrame_of (features_list : list FeatureRecord) : DataFrame :=
  mkDataFrame features_list None.

(** [features_df["score"] = values] *)
Definition set_score (features_df : DataFrame) (values : list Z) : DataFrame :=
  mkDataFrame (rows features_df) (Some values).

(** A two-dimensional array with named columns: one function per row. *)
Definition Row : Type := Col.t -> Q.

Definition feature_columns : list Col.t :=
  [Col.borrow_count; Col.repayment_ratio; Col.collateral_ratio;
   Col.liquidation_count; Col.total_volume; Col.activity_level;
   Col.no_compound_activity].

(** [features_df[feature_columns]] *)
Definition select (features_df : DataFrame) : list Row :=
  map get (rows features_df).

(** ** NumPy *)

Definition amin (x : Q) (l : list Q) : Q := fold_left Qmin l x.
Definition amax (x : Q) (l : list Q) : Q := fold_left Qmax l x.

(** [a.min()] and [a.max()]: a zero-size array has no minimum. *)
Definition np_min (a : list Q) : result Q :=
  match a with
  | [] => Raise ValueError
  | x :: l => Ok (amin x l)
  end.

Definition np_max (a : list Q) : result Q :=
  match a with
  | [] => Raise ValueError
  | x :: l => Ok (amax x l)
  end.

Definition np_zeros (n : nat) : list Q := repeat 0 n.
Definition np_ones (n : nat) : list Q := repeat 1 n.

(** Elementwise sum of two arrays of the same length. *)
Definition vadd (u v : list Q) : list Q :=
  map (fun p => fst p + snd p) (combine u v).

(** [np.clip(x, lo, hi)] is [minimum(maximum(x, lo), hi)]. *)
Definition np_clip (lo hi x : Q) : Q := Qmin (Qmax x lo) hi.

(** [x.astype(int)]: conversion to an integer truncates toward zero. *)
Definition astype_int (x : Q) : Z := Z.quot (Qnum x) (Zpos (Qden x)).

(** ** scikit-learn's MinMaxScaler, with the default [feature_range=(0, 1)] *)

Module MinMaxScaler.

(** [np.finfo(np.float64).eps] *)
Definition eps : Q := 1 # 4503599627370496.

(** [_handle_zeros_in_scale]: a (near) constant column, whose range is
    below [10 * eps], is given the scale 1 so that nothing is divided by
    zero or by a tiny number. *)
Definition handle_zeros_in_scale (scale : Q) : Q :=
  match scale ?= 10 * eps with
  | Lt => 1
  | _ => scale
  end.

Record t : Type := mk {
  data_min_ : Row;
  data_max_ : Row;
  scale_ : Row;
  min_ : Row
}.

(** [fit]: per-column minimum and maximum over the samples; at least one
    sample is required. *)
Definition fit (X : list Row) : result t :=
  match X with
  | [] => Raise ValueError
  | x :: X' =>
      let data_min := fun c => amin (x c) (map (fun r => r c) X') in
      let data_max := fun c => amax (x c) (map (fun r => r c) X') in
      let data_range := fun c => data_max c - data_min c in
      let scale := fun c => (1 - 0) / handle_zeros_in_scale (data_range c) in
      Ok (mk data_min data_max scale (fun c => 0 - data_min c * scale c))
  end.

(** [transform]: [X *= scale_; X += min_] *)
Definition transform (s : t) (X : list Row) : list Row :=
  map (fun (r : Row) c => r c * scale_ s c + min_ s c) X.

Definition fit_transform (X : list Row) : result (list Row) :=
  s <- fit X ;; Ok (transform s X).

End MinMaxScaler.

(** ** The scorer *)

(** The [weights] dictionary, in insertion order. *)
Definition weights : list (Col.t * Q) :=
  [(Col.borrow_count, - 0.2);
   (Col.repayment_ratio, 0.3);
   (Col.collateral_ratio, 0.3);
   (Col.liquidation_count, - 0.25);
   (Col.total_volume, 0.2);
   (Col.activity_level, 0.25);
   (Col.no_compound_activity, - 0.1)].

(** Lines 275-277: [scores = np.zeros(len(features_df))], then for every
    weighted feature [scores += normalized_df[feature] * weight]; the
    normalized frame has as many rows as [features_df]. *)
Definition weighted_scores (normalized_df : list Row) : list Q :=
  fold_left
    (fun scores fw =>
       vadd scores (map (fun r : Row => r (fst fw) * snd fw) normalized_df))
    weights
    (np_zeros (length normalized_df)).

(** Lines 280-284: scale the weighted scores to the reporting range;
    [scores] has [len(features_df)] entries. *)
Definition rescale (scores : list Q) : result (list Q) :=
  min_score <- np_min scores ;;
  max_score <- np_max scores ;;
  if Qeq_bool max_score min_score
  then Ok (map (fun o => o * 500) (np_ones (length scores)))
  else Ok (map (fun s => (s - min_score) / (max_score - min_score) * 900 + 100)
               scores).

(** The weighted ("raw") scores of a frame: lines 258-277. *)
Definition raw_scores (features_df : DataFrame) : result (list Q) :=
  normalized_df <- MinMaxScaler.fit_transform (select features_df) ;;
  Ok (weighted_scores normalized_df).

(** Lines 253-287. The frame is passed by reference: the function returns
    the frame as it is after the call, together with either the returned
    two-column frame [features_df[["wallet_id", "score"]]] or the exception
    that escaped. *)
Definition calculate_risk_score (features_df : DataFrame)
  : DataFrame * result (list (string * Z)) :=
  let computed :=
    scores <- raw_scores features_df ;;
    scores <- rescale scores ;;
    Ok (map astype_int (map (np_clip 0 1000) scores)) in
  match computed with
  | Raise e => (features_df, Raise e)
  | Ok values =>
      let features_df' := set_score features_df values in
      (features_df',
       Ok (combine (map wallet_id (rows features_df')) values))
  end.

(** The worked fixture of the specification (three wallets). *)
Definition W1 : FeatureRecord := mkFeatureRecord "W1" 0 1 1 0 0 0 1.
Definition W2 : FeatureRecord := mkFeatureRecord "W2" 5 0.5 1.5 0 10 0.9 0.
Definition W3 : FeatureRecord := mkFeatureRecord "W3" 10 0.1 0.5 2 50 0.95 0.
Definition fixture : DataFrame := DataFrame_of [W1; W2; W3].

(** Two records of one wallet, with different features. *)
Definition duplicate_batch : DataFrame :=
  DataFrame_of [mkFeatureRecord "W1" 0 1 1 0 0 0 1;
                mkFeatureRecord "W1" 5 0.5 1.5 0 10 0.9 0].


(** The fixture with a fourth wallet that differs from [W2] only by its
    two liquidations. *)
Definition W4 : FeatureRecord := mkFeatureRecord "W4" 5 0.5 1.5 2 10 0.9 0.
Definition liquidated_batch : DataFrame := DataFrame_of [W1; W2; W3; W4].

(** The weighted scores of the fixture and their extremes, as the model
    computes them (fractions are not reduced). *)
Definition fixture_raw : list Q :=
  Eval vm_compute in
    match raw_scores fixture with Ok l => l | Raise _ => [] end.
Definition fixture_min_raw : Q :=
  Eval vm_compute in
    match np_min fixture_raw with Ok m => m | Raise _ => 0 end.
Definition fixture_max_raw : Q :=
  Eval vm_compute in
    match np_max fixture_raw with Ok m => m | Raise _ => 0 end.


(** * Feature extraction and orchestration *)

(** ** Python strings *)

(** [str.lower()] on the ASCII range, which is where addresses and call
    data live (hexadecimal text). *)
Definition lower_ascii (c : ascii) : ascii :=
  let n := nat_of_ascii c in
  if (65 <=? n)%nat && (n <=? 90)%nat then ascii_of_nat (n + 32) else c.

Fixpoint lower (s : string) : string :=
  match s with
  | EmptyString => EmptyString
  | String c s' => String (lower_ascii c) (lower s')
  end.

(** [s.startswith(p)] *)
Definition startswith (s p : string) : bool := String.prefix p s.

(** [x in xs] for a collection of strings. *)
Definition contains (x : string) (xs : list string) : bool :=
  existsb (String.eqb x) xs.

(** [str(n)] for an integer. *)
Definition str_of_int (n : Z) : string := NilZero.string_of_int (Z.to_int n).

(** ** Constants of the script (lines 45-54, 199-202) *)

Definition COMPOUND_CONTRACTS : list (string * string) :=
  [("cDAI", "0x5d3a536e4d6dbd6114cc1ead35777bab948e3643");
   ("cETH", "0x4ddc2d193948926d02f9b1fe9e1daa0718270ed5");
   ("cUSDC", "0x39aa39c021dfbae8fac545936693ac917d5e7563");
   ("cUSDT", "0xf650c3d88d12be4e4267fcedd83c6e9a4e2c6d5e");
   ("Comptroller", "0x3d9819210a31b4961b30ef54be2aed79b9c9cd3b")]%string.

(** [COMPOUND_CONTRACTS.values()] *)
Definition COMPOUND_CONTRACTS_values : list string :=
  map snd COMPOUND_CONTRACTS.

Definition BORROW_SIG : string := "0x69328dec".
Definition REPAY_SIG : string := "0x0e6798a0".
Definition MINT_SIG : string := "0x1241ab3f".
Definition LIQUIDATE_SIG : string := "0x7db4f5c".

(** ** Transactions *)

(** One entry of the transaction list of the indexing service. [tx_value]
    is [int(tx["value"])], the amount in wei; [tx_to] is [tx["to"]], which
    is absent or empty for a contract creation; [tx_input] is
    [tx["input"]]. *)
Record Transaction : Type := mkTransaction {
  tx_value : Z;
  tx_to : option string;
  tx_input : string
}.

(** The local variables of the loop of [extract_features]
    (lines 189-196). *)
Record Counters : Type := mkCounters {
  c_borrow_count : Z;
  c_repayment_count : Z;
  c_total_borrowed : Q;
  c_total_repaid : Q;
  c_collateral_deposited : Q;
  c_liquidation_count : Z;
  c_total_volume : Q;
  c_tx_count : Z
}.

Definition counters_init : Counters := mkCounters 0 0 0 0 0 0 0 0.

(** [tx["to"].lower() if tx["to"] else ""] *)
Definition to_address_of (tx : Transaction) : string :=
  match tx_to tx with
  | Some a => match a with EmptyString => EmptyString | _ => lower a end
  | None => EmptyString
  end.

(** [int(tx["value"]) / 1e18]: wei to ether. *)
Definition ether_of (tx : Transaction) : Q :=
  inject_Z (tx_value tx) / 1000000000000000000.

(** One iteration of the loop, lines 205-222. *)
Definition extract_step (st : Counters) (tx : Transaction) : Counters :=
  let value := ether_of tx in
  let total_volume := c_total_volume st + value in
  let tx_count := (c_tx_count st + 1)%Z in
  let to_address := to_address_of tx in
  let input_data := lower (tx_input tx) in
  if contains to_address COMPOUND_CONTRACTS_values then
    if startswith input_data BORROW_SIG then
      mkCounters (c_borrow_count st + 1) (c_repayment_count st)
                 (c_total_borrowed st + value) (c_total_repaid st)
                 (c_collateral_deposited st) (c_liquidation_count st)
                 total_volume tx_count
    else if startswith input_data REPAY_SIG then
      mkCounters (c_borrow_count st) (c_repayment_count st + 1)
                 (c_total_borrowed st) (c_total_repaid st + value)
                 (c_collateral_deposited st) (c_liquidation_count st)
                 total_volume tx_count
    else if startswith input_data MINT_SIG then
      mkCounters (c_borrow_count st) (c_repayment_count st)
                 (c_total_borrowed st) (c_total_repaid st)
                 (c_collateral_deposited st + value) (c_liquidation_count st)
                 total_volume tx_count
    else if startswith input_data LIQUIDATE_SIG then
      mkCounters (c_borrow_count st) (c_repayment_count st)
                 (c_total_borrowed st) (c_total_repaid st)
                 (c_collateral_deposited st) (c_liquidation_count st + 1)
                 total_volume tx_count
    else
      mkCounters (c_borrow_count st) (c_repayment_count st)
                 (c_total_borrowed st) (c_total_repaid st)
                 (c_collateral_deposited st) (c_liquidation_count st)
                 total_volume tx_count
  else
    mkCounters (c_borrow_count st) (c_repayment_count st)
               (c_total_borrowed st) (c_total_repaid st)
               (c_collateral_deposited st) (c_liquidation_count st)
               total_volume tx_count.

(** [x > 0] *)
Definition Qpositive (x : Q) : bool := negb (Qle_bool x 0).

(** Lines 224-251: the features computed from the final counters. *)
Definition features_of_counters (st : Counters) (wallet_address : string)
  : FeatureRecord :=
  let repayment_ratio :=
    if Qpositive (c_total_borrowed st)
    then c_total_repaid st / (c_total_borrowed st + (1 # 10000000000))
    else 1 in
  let collateral_ratio :=
    if Qpositive (c_total_borrowed st)
    then c_collateral_deposited st / (c_total_borrowed st + (1 # 10000000000))
    else 1 in
  let activity_level :=
    inject_Z (c_tx_count st) / inject_Z (c_tx_count st + 1) in
  if (c_borrow_count st =? 0)%Z && (c_repayment_count st =? 0)%Z
     && Qeq_bool (c_collateral_deposited st) 0
  then mkFeatureRecord wallet_address 0 1 1 0
                       (c_total_volume st) activity_level 1
  else mkFeatureRecord wallet_address
                       (inject_Z (c_borrow_count st))
                       repayment_ratio collateral_ratio
                       (inject_Z (c_liquidation_count st))
                       (c_total_volume st) activity_level 0.

(** Lines 187-251. *)
Definition extract_features (transactions : list Transaction)
           (wallet_address : string) : FeatureRecord :=
  features_of_counters (fold_left extract_step transactions counters_init)
                       wallet_address.

(** ** The indexing service *)

(** The JSON object of a reply, and the reply itself. These are the well
    formed replies: the status code of a reply that was received, and a
    body that is a JSON object with the three keys the source reads. A
    request that fails, a body that is not JSON and an object without
    ["status"], ["message"] or ["result"] make the source raise (it has no
    handler); such replies are not values of these types. *)
Record ApiData : Type := mkApiData {
  api_status : string;
  api_message : string;
  api_result : list Transaction
}.

Record Response : Type := mkResponse {
  status_code : Z;
  json : ApiData
}.

(** Lines 163-185, on well formed replies. [requests_get] stands for the
    request to the service for one address; the function returns the lines
    it prints and the transaction list. *)
Definition fetch_transactions (requests_get : string -> Response)
           (wallet_address : string) : list string * list Transaction :=
  let response := requests_get wallet_address in
  if (status_code response =? 200)%Z then
    let data := json response in
    if String.eqb (api_status data) "1" then ([], api_result data)
    else
      ([String.append "Error fetching data for "
          (String.append wallet_address
             (String.append ": " (api_message data)))], [])
  else
    ([String.append "HTTP error for "
        (String.append wallet_address
           (String.append ": " (str_of_int (status_code response))))], []).

(** ** The orchestrator *)

(** Lines 57-161. *)
Definition wallet_addresses : list string :=
  ["0x0039f22efb07a647557c7c5d17854cfd6d489ef3";
   "0x06b51c6882b27cb05e712185531c1f74996dd988";
   "0x0795732aacc448030ef374374eaae57d2965c16c";
   "0x0aaa79f1a86bc8136cd0d1ca0d51964f4e3766f9";
   "0x0fe383e5abc200055a7f391f94a5f5d1f844b9ae";
   "0x104ae61d8d487ad689969a17807ddc338b445416";
   "0x111c7208a7e2af345d36b6d4aace8740d61a3078";
   "0x124853fecb522c57d9bd5c21231058696ca6d596";
   "0x13b1c8b0e696aff8b4fee742119b549b605f3cbc";
   "0x1656f1886c5ab634ac19568cd571bc72f385fdf7";
   "0x1724e16cb8d0e2aa4d08035bc6b5c56b680a3b22";
   "0x19df3e87f73c4aaf4809295561465b993e102668";
   "0x1ab2ccad4fc97c9968ea87d4435326715be32872";
   "0x1c1b30ca93ef57452d53885d97a74f61daf2bf4f";
   "0x1e43dacdcf863676a6bec8f7d6896d6252fac669";
   "0x22d7510588d90ed5a87e0f838391aaafa707c34b";
   "0x24b3460622d835c56d9a4fe352966b9bdc6c20af";
   "0x26750f1f4277221bdb5f6991473c6ece8c821f9d";
   "0x27f72a000d8e9f324583f3a3491ea66998275b28";
   "0x2844658bf341db96aa247259824f42025e3bcec2";
   "0x2a2fde3e1beb508fcf7c137a1d5965f13a17825e";
   "0x330513970efd9e8dd606275fb4c50378989b3204";
   "0x3361bea43c2f5f963f81ac70f64e6fba1f1d2a97";
   "0x3867d222ba91236ad4d12c31056626f9e798629c";
   "0x3a44be4581137019f83021eeee72b7dc57756069";
   "0x3e69ad05716bdc834db72c4d6d44439a7c8a902b";
   "0x427f2ac5fdf4245e027d767e7c3ac272a1f40a65";
   "0x4814be124d7fe3b240eb46061f7ddfab468fe122";
   "0x4839e666e2baf12a51bf004392b35972eeddeabf";
   "0x4c4d05fe859279c91b074429b5fc451182cec745";
   "0x4d997c89bc659a3e8452038a8101161e7e7e53a7";
   "0x4db0a72edb5ea6c55df929f76e7d5bb14e389860";
   "0x4e61251336c32e4fe6bfd5fab014846599321389";
   "0x4e6e724f4163b24ffc7ffe662b5f6815b18b4210";
   "0x507b6c0d950702f066a9a1bd5e85206f87b065ba";
   "0x54e19653be9d4143b08994906be0e27555e8834d";
   "0x56ba823641bfc317afc8459bf27feed6eb9ff59f";
   "0x56cc2bffcb3f86a30c492f9d1a671a1f744d1d2f";
   "0x578cea5f899b0dfbf05c7fbcfda1a644b2a47787";
   "0x58c2a9099a03750e9842d3e9a7780cdd6aa70b86";
   "0x58d68d4bcf9725e40353379cec92b90332561683";
   "0x5e324b4a564512ea7c93088dba2f8c1bf046a3eb";
   "0x612a3500559be7be7703de6dc397afb541a16f7f";
   "0x623af911f493747c216ad389c7805a37019c662d";
   "0x6a2752a534faacaaa153bffbb973dd84e0e5497b";
   "0x6d69ca3711e504658977367e13c300ab198379f1";
   "0x6e355417f7f56e7927d1cd971f0b5a1e6d538487";
   "0x70c1864282599a762c674dd9d567b37e13bce755";
   "0x70d8e4ab175dfe0eab4e9a7f33e0a2d19f44001e";
   "0x7399dbeebe2f88bc6ac4e3fd7ddb836a4bce322f";
   "0x767055590c73b7d2aaa6219da13807c493f91a20";
   "0x7851bdfb64bbecfb40c030d722a1f147dff5db6a";
   "0x7b4636320daa0bc055368a4f9b9d01bd8ac51877";
   "0x7b57dbe2f2e4912a29754ff3e412ed9507fd8957";
   "0x7be3dfb5b6fcbae542ea85e76cc19916a20f6c1e";
   "0x7de76a449cf60ea3e111ff18b28e516d89532152";
   "0x7e3eab408b9c76a13305ef34606f17c16f7b33cc";
   "0x7f5e6a28afc9fb0aaf4259d4ff69991b88ebea47";
   "0x83ea74c67d393c6894c34c464657bda2183a2f1a";
   "0x8441fecef5cc6f697be2c4fc4a36feacede8df67";
   "0x854a873b8f9bfac36a5eb9c648e285a095a7478d";
   "0x8587d9f794f06d976c2ec1cfd523983b856f5ca9";
   "0x880a0af12da55df1197f41697c1a1b61670ed410";
   "0x8aaece100580b749a20f8ce30338c4e0770b65ed";
   "0x8be38ea2b22b706aef313c2de81f7d179024dd30";
   "0x8d900f213db5205c529aaba5d10e71a0ed2646db";
   "0x91919344c1dad09772d19ad8ad4f1bcd29c51f27";
   "0x93f0891bf71d8abed78e0de0885bd26355bb8b1d";
   "0x96479b087cb8f236a5e2dcbfc50ce63b2f421da6";
   "0x96bb4447a02b95f1d1e85374cffd565eb22ed2f8";
   "0x9a363adc5d382c04d36b09158286328f75672098";
   "0x9ad1331c5b6c5a641acffb32719c66a80c6e1a17";
   "0x9ba0d85f71e145ccf15225e59631e5a883d5d74a";
   "0x9e6ec4e98793970a1307262ba68d37594e58cd78";
   "0xa7e94d933eb0c439dda357f61244a485246e97b8";
   "0xa7f3c74f0255796fd5d3ddcf88db769f7a6bf46a";
   "0xa98dc64bb42575efec7d1e4560c029231ce5da51";
   "0xb271ff7090b39028eb6e711c3f89a3453d5861ee";
   "0xb475576594ae44e1f75f534f993cbb7673e4c8b6";
   "0xb57297c5d02def954794e593db93d0a302e43e5c";
   "0xbd4a00764217c13a246f86db58d74541a0c3972a";
   "0xc179d55f7e00e789915760f7d260a1bf6285278b";
   "0xc22b8e78394ce52e0034609a67ae3c959daa84bc";
   "0xcbbd9fe837a14258286bbf2e182cbc4e4518c5a3";
   "0xcecf5163bb057c1aff4963d9b9a7d2f0bf591710";
   "0xcf0033bf27804640e5339e06443e208db5870dd2";
   "0xd0df53e296c1e3115fccc3d7cdf4ba495e593b56";
   "0xd1a3888fd8f490367c6104e10b4154427c02dd9c";
   "0xd334d18fa6bada9a10f361bae42a019ce88a3c33";
   "0xd9d3930ffa343f5a0eec7606d045d0843d3a02b4";
   "0xdde73df7bd4d704a89ad8421402701b3a460c6e9";
   "0xde92d70252804fd8c5998c8ee3ed282a41b33b7f";
   "0xded1f838ae6aa5fcd0f13481b37ee88e5bdccb3d";
   "0xebb8629e8a3ec86cf90cb7600264415640834483";
   "0xeded1c8c0a0c532195b8432153f3bfa81dba2a90";
   "0xf10fd8921019615a856c1e95c7cd3632de34edc4";
   "0xf340b9f2098f80b86fbc5ede586c319473aa11f3";
   "0xf54f36bca969800fd7d63a68029561309938c09b";
   "0xf60304b534f74977e159b2e159e135475c245526";
   "0xf67e8e5805835465f7eba988259db882ab726800";
   "0xf7aa5d0752cfcd41b0a5945867d619a80c405e52";
   "0xf80a8b9cfff0febf49914c269fb8aead4a22f847";
   "0xfe5a05c0f8b24fca15a7306f6a4ebb7dcf2186ac"]%string.

(** The loop of [main], lines 290-295, over a list of addresses: printed
    lines and [features_list]. *)
Definition collect_features (requests_get : string -> Response)
           (wallets : list string) : list string * list FeatureRecord :=
  fold_left
    (fun acc wallet =>
       let fetched := fetch_transactions requests_get wallet in
       let features := extract_features (snd fetched) wallet in
       (fst acc ++ [String.append "Processing wallet: " wallet] ++ fst fetched,
        snd acc ++ [features]))
    wallets ([], []).

(** Lines 289-305, for a service with well formed replies: the printed
    lines and the frame handed to [to_csv], or the exception that escaped
    from the scorer. *)
Definition main (requests_get : string -> Response)
  : list string * result (list (string * Z)) :=
  let collected := collect_features requests_get wallet_addresses in
  let features_df := DataFrame_of (snd collected) in
  match snd (calculate_risk_score features_df) with
  | Ok result_df =>
      (fst collected ++ ["Results saved to wallet_risk_scores.csv"%string],
       Ok result_df)
  | Raise e => (fst collected, Raise e)
  end.

(** ** Reading the loop of [extract_features] *)

(** The branch of the loop body a transaction takes. *)
Inductive TxKind : Set := Borrow | Repay | Mint | Liquidate | Other.

Definition kind (tx : Transaction) : TxKind :=
  if contains (to_address_of tx) COMPOUND_CONTRACTS_values then
    if startswith (lower (tx_input tx)) BORROW_SIG then Borrow
    else if startswith (lower (tx_input tx)) REPAY_SIG then Repay
    else if startswith (lower (tx_input tx)) MINT_SIG then Mint
    else if startswith (lower (tx_input tx)) LIQUIDATE_SIG then Liquidate
    else Other
  else Other.

Definition TxKind_eqb (a b : TxKind) : bool :=
  match a, b with
  | Borrow, Borrow | Repay, Repay | Mint, Mint
  | Liquidate, Liquidate | Other, Other => true
  | _, _ => false
  end.

(** The transactions of one kind, their number and their total value. *)
Definition of_kind (k : TxKind) (txs : list Transaction) : list Transaction :=
  filter (fun tx => TxKind_eqb (kind tx) k) txs.

Definition count_kind (k : TxKind) (txs : list Transaction) : Z :=
  Z.of_nat (length (of_kind k txs)).

Definition ether_sum (txs : list Transaction) : Q :=
  fold_right (fun tx acc => ether_of tx + acc) 0 txs.

(** [to_address in COMPOUND_CONTRACTS.values()] *)
Definition to_compound (tx : Transaction) : bool :=
  contains (to_address_of tx) COMPOUND_CONTRACTS_values.

(** Two loop states agree on the variables that the protocol branches
    update. *)
Definition same_protocol_counters (a b : Counters) : Prop :=
  c_borrow_count a = c_borrow_count b /\
  c_repayment_count a = c_repayment_count b /\
  c_total_borrowed a = c_total_borrowed b /\
  c_total_repaid a = c_total_repaid b /\
  c_collateral_deposited a = c_collateral_deposited b /\
  c_liquidation_count a = c_liquidation_count b.

(** The reply of a service that is down. *)
Definition service_down (wallet_address : string) : Response :=
  mkResponse 503 (mkApiData "" "" []).

(** Two transactions that differ at most by the letter case of the
    destination address and of the call data. *)
Definition same_up_to_case (a b : Transaction) : Prop :=
  tx_value a = tx_value b /\
  option_map lower (tx_to a) = option_map lower (tx_to b) /\
  lower (tx_input a) = lower (tx_input b).

(** Sample transactions: calls to the cETH contract (written with mixed
    case, as checksummed addresses are) and a plain transfer. *)
Definition cETH_checksummed : string :=
  "0x4Ddc2D193948926D02f9B1fE9e1daa0718270ED5".
Definition borrow_call : Transaction :=
  mkTransaction 2000000000000000000 (Some cETH_checksummed)
                "0x69328dec0000000000000000000000000000000000000000000000000000000000000001".
Definition repay_call : Transaction :=
  mkTransaction 1000000000000000000 (Some cETH_checksummed) "0x0E6798A0".
Definition mint_call : Transaction :=
  mkTransaction 3000000000000000000 (Some cETH_checksummed) "0x1241ab3f".
Definition liquidation_call : Transaction :=
  mkTransaction 0 (Some cETH_checksummed) "0x7db4f5c1".
Definition plain_transfer : Transaction :=
  mkTransaction 500000000000000000
                (Some "0x0039f22efb07a647557c7c5d17854cfd6d489ef3"%string) "0x".

(** A borrow call that carries no value, as calls for token markets do,
    and a transaction with the value of [borrow_call] but no destination
    and no call data. *)
Definition zero_value_borrow_call : Transaction :=
  mkTransaction 0 (Some cETH_checksummed) "0x69328dec".
Definition contract_creation : Transaction :=
  mkTransaction 2000000000000000000 None "".


(** The record of a wallet without any transaction. *)
Definition empty_history_record (wallet_address : string) : FeatureRecord :=
  mkFeatureRecord wallet_address 0 1 1 0 0 0 1.

(** A wallet that differs from [W2] only by a higher repayment ratio. *)
Definition W6 : FeatureRecord := mkFeatureRecord "W6" 5 0.8 1.5 0 10 0.9 0.
Definition repaid_batch : DataFrame := DataFrame_of [W1; W2; W3; W6].

(** ** Per-record view of the scorer (used to state and prove the claims) *)

(** Weighted sum of one normalized row, in the order of [weights]. *)
Definition raw_score (r : Row) : Q :=
  fold_left (fun s fw => s + r (fst fw) * snd fw) weights 0.

(** One row after [transform]. *)
Definition normalized (s : MinMaxScaler.t) (r : Row) : Row :=
  fun c => r c * MinMaxScaler.scale_ s c + MinMaxScaler.min_ s c.

(** Weighted score of a record under a fitted scaler. *)
Definition raw_of (s : MinMaxScaler.t) (r : FeatureRecord) : Q :=
  raw_score (normalized s (get r)).

(** Score before clipping, given the extreme weighted scores. *)
Definition scaled (lo hi x : Q) : Q :=
  if Qeq_bool hi lo then 1 * 500 else (x - lo) / (hi - lo) * 900 + 100.

Definition final_score (s : MinMaxScaler.t) (lo hi : Q) (r : FeatureRecord) : Z :=
  astype_int (np_clip 0 1000 (scaled lo hi (raw_of s r))).

(** What [fit] stores, column by column. *)
Record fitted (X : list Row) (s : MinMaxScaler.t) : Prop := {
  fitted_min : forall c, exists x X',
      X = x :: X' /\ MinMaxScaler.data_min_ s c = amin (x c) (map (fun r => r c) X');
  fitted_max : forall c, exists x X',
      X = x :: X' /\ MinMaxScaler.data_max_ s c = amax (x c) (map (fun r => r c) X');
  fitted_scale : forall c,
      MinMaxScaler.scale_ s c =
      (1 - 0) / MinMaxScaler.handle_zeros_in_scale
                  (MinMaxScaler.data_max_ s c - MinMaxScaler.data_min_ s c);
  fitted_shift : forall c,
      MinMaxScaler.min_ s c =
      0 - MinMaxScaler.data_min_ s c * MinMaxScaler.scale_ s c
}.

(** Two arrays have the same elements up to [==]. *)
Definition same_elements (l l' : list Q) : Prop :=
  (forall y, In y l -> exists y', In y' l' /\ y == y') /\
  (forall y', In y' l' -> exists y, In y l /\ y == y').

(** * Proofs *)

(** ** The error monad *)

Lemma bind_assoc {A B C : Type} (m : result A) (f : A -> result B)
      (g : B -> result C) :
  bind (bind m f) g = bind m (fun a => bind (f a) g).
Proof. destruct m; reflexivity. Qed.

(** ** Minimum and maximum of an array *)

Lemma Qmin_cases (x y : Q) : Qmin x y = x \/ Qmin x y = y.
Proof.
  unfold Qmin, GenericMinMax.gmin. destruct (x ?= y); auto.
Qed.

Lemma Qmax_cases (x y : Q) : Qmax x y = x \/ Qmax x y = y.
Proof.
  unfold Qmax, GenericMinMax.gmax. destruct (x ?= y); auto.
Qed.

Lemma amin_le_init (l : list Q) : forall x, amin x l <= x.
Proof.
  unfold amin. induction l as [|a l IH]; intros x; simpl.
  - apply Qle_refl.
  - eapply Qle_trans; [apply IH | apply Q.le_min_l].
Qed.

Lemma amin_le_In (l : list Q) : forall x y, In y l -> amin x l <= y.
Proof.
  induction l as [|a l IH]; intros x y Hy; simpl in *; [contradiction|].
  destruct Hy as [<-|Hy].
  - eapply Qle_trans; [apply (amin_le_init l) | apply Q.le_min_r].
  - apply (IH _ _ Hy).
Qed.

Lemma amin_In (l : list Q) : forall x, In (amin x l) (x :: l).
Proof.
  induction l as [|a l IH]; intros x; simpl; [now left|].
  destruct (IH (Qmin x a)) as [H|H].
  - change (fold_left Qmin l (Qmin x a)) with (amin (Qmin x a) l).
    rewrite <- H.
    destruct (Qmin_cases x a) as [E|E]; rewrite E; auto.
  - right; right. exact H.
Qed.

Lemma amax_ge_init (l : list Q) : forall x, x <= amax x l.
Proof.
  unfold amax. induction l as [|a l IH]; intros x; simpl.
  - apply Qle_refl.
  - eapply Qle_trans; [apply Q.le_max_l | apply IH].
Qed.

Lemma amax_ge_In (l : list Q) : forall x y, In y l -> y <= amax x l.
Proof.
  induction l as [|a l IH]; intros x y Hy; simpl in *; [contradiction|].
  destruct Hy as [<-|Hy].
  - eapply Qle_trans; [apply Q.le_max_r | apply (amax_ge_init l)].
  - apply (IH _ _ Hy).
Qed.

Lemma amax_In (l : list Q) : forall x, In (amax x l) (x :: l).
Proof.
  induction l as [|a l IH]; intros x; simpl; [now left|].
  destruct (IH (Qmax x a)) as [H|H].
  - change (fold_left Qmax l (Qmax x a)) with (amax (Qmax x a) l).
    rewrite <- H.
    destruct (Qmax_cases x a) as [E|E]; rewrite E; auto.
  - right; right. exact H.
Qed.

Lemma amin_lower (x : Q) (l : list Q) (y : Q) :
  In y (x :: l) -> amin x l <= y.
Proof.
  intros [<-|H]; [apply amin_le_init | now apply amin_le_In].
Qed.

Lemma amax_upper (x : Q) (l : list Q) (y : Q) :
  In y (x :: l) -> y <= amax x l.
Proof.
  intros [<-|H]; [apply amax_ge_init | now apply amax_ge_In].
Qed.

Lemma amin_le_amax (x : Q) (l : list Q) : amin x l <= amax x l.
Proof.
  eapply Qle_trans; [apply amin_le_init | apply amax_ge_init].
Qed.

Lemma amin_same_elements (x x' : Q) (l l' : list Q) :
  same_elements (x :: l) (x' :: l') -> amin x l == amin x' l'.
Proof.
  intros [H1 H2]. apply Qle_antisym.
  - destruct (H2 _ (amin_In l' x')) as (y & Hy & E).
    rewrite <- E. now apply amin_lower.
  - destruct (H1 _ (amin_In l x)) as (y & Hy & E).
    rewrite E. now apply amin_lower.
Qed.

Lemma amax_same_elements (x x' : Q) (l l' : list Q) :
  same_elements (x :: l) (x' :: l') -> amax x l == amax x' l'.
Proof.
  intros [H1 H2]. apply Qle_antisym.
  - destruct (H1 _ (amax_In l x)) as (y & Hy & E).
    rewrite E. now apply amax_upper.
  - destruct (H2 _ (amax_In l' x')) as (y & Hy & E).
    rewrite <- E. now apply amax_upper.
Qed.

(** ** Clipping and truncation *)

Lemma np_clip_bounds (x : Q) : 0 <= np_clip 0 1000 x <= 1000.
Proof.
  unfold np_clip. split.
  - apply Q.min_glb; [apply Q.le_max_r | discriminate].
  - apply Q.le_min_r.
Qed.

Lemma np_clip_id (x : Q) : 0 <= x <= 1000 -> np_clip 0 1000 x = x.
Proof.
  intros [H0 H1]. unfold np_clip, Qmin, Qmax, GenericMinMax.gmin, GenericMinMax.gmax.
  destruct (x ?= 0) eqn:E0.
  - destruct (x ?= 1000) eqn:E1; try reflexivity.
    apply Qgt_alt in E1. lra.
  - apply Qlt_alt in E0. lra.
  - destruct (x ?= 1000) eqn:E1; try reflexivity.
    apply Qgt_alt in E1. lra.
Qed.

Lemma np_clip_mono (x y : Q) : x <= y -> np_clip 0 1000 x <= np_clip 0 1000 y.
Proof.
  intros H. unfold np_clip.
  apply Q.min_le_compat_r. apply Q.max_le_compat_r. exact H.
Qed.

#[local] Instance np_clip_comp : Proper (Qeq ==> Qeq) (np_clip 0 1000).
Proof.
  intros x y E. apply Qle_antisym; apply np_clip_mono; rewrite E; apply Qle_refl.
Qed.

Lemma astype_int_nonneg (x : Q) : 0 <= x -> astype_int x = Qfloor x.
Proof.
  destruct x as [n d]. unfold Qle, astype_int, Qfloor. simpl. intros H.
  apply Z.quot_div_nonneg; lia.
Qed.

Lemma astype_int_clip (x : Q) :
  astype_int (np_clip 0 1000 x) = Qfloor (np_clip 0 1000 x).
Proof. apply astype_int_nonneg, np_clip_bounds. Qed.

(** ** The weighted sum, row by row *)

Lemma accumulate_cons (ws : list (Col.t * Q)) (r : Row) (N : list Row) :
  forall (a : Q) (v : list Q),
    fold_left
      (fun scores fw =>
         vadd scores (map (fun r : Row => r (fst fw) * snd fw) (r :: N)))
      ws (a :: v)
    = fold_left (fun s fw => s + r (fst fw) * snd fw) ws a
      :: fold_left
           (fun scores fw =>
              vadd scores (map (fun r : Row => r (fst fw) * snd fw) N))
           ws v.
Proof.
  induction ws as [|fw ws IH]; intros a v; simpl; [reflexivity|].
  unfold vadd at 2. simpl. rewrite IH. reflexivity.
Qed.

Lemma accumulate_nil (ws : list (Col.t * Q)) :
  fold_left
    (fun scores fw =>
       vadd scores (map (fun r : Row => r (fst fw) * snd fw) []))
    ws [] = [].
Proof. induction ws as [|fw ws IH]; simpl; auto. Qed.

Lemma weighted_scores_map (N : list Row) :
  weighted_scores N = map raw_score N.
Proof.
  unfold weighted_scores, raw_score.
  induction N as [|r N IH]; simpl length; unfold np_zeros; simpl repeat.
  - apply accumulate_nil.
  - rewrite accumulate_cons. simpl map. f_equal. exact IH.
Qed.

Lemma weighted_scores_length (N : list Row) :
  length (weighted_scores N) = length N.
Proof. rewrite weighted_scores_map. apply length_map. Qed.

(** ** Closed form of the scorer on a non-empty frame *)

Lemma fit_fitted (X : list Row) (s : MinMaxScaler.t) :
  MinMaxScaler.fit X = Ok s -> fitted X s.
Proof.
  destruct X as [|x X']; simpl; intros H; [discriminate|].
  injection H as <-.
  split; intros c; simpl; try reflexivity; exists x, X'; split; reflexivity.
Qed.

Lemma fit_nonempty (x : Row) (X' : list Row) :
  exists s, MinMaxScaler.fit (x :: X') = Ok s.
Proof. simpl. eexists. reflexivity. Qed.

Lemma map_const_repeat {A : Type} (l : list A) (q : Q) (f : Q -> Q) :
  map f (repeat q (length l)) = map (fun _ => f q) l.
Proof. induction l as [|a l IH]; simpl; [reflexivity | now rewrite IH]. Qed.

Lemma combine_map_same {A B C : Type} (f : A -> B) (g : A -> C) (l : list A) :
  combine (map f l) (map g l) = map (fun a => (f a, g a)) l.
Proof. induction l as [|a l IH]; simpl; [reflexivity | now rewrite IH]. Qed.

Lemma rescale_cons (x : Q) (l : list Q) :
  rescale (x :: l) = Ok (map (scaled (amin x l) (amax x l)) (x :: l)).
Proof.
  unfold rescale. cbn [np_min np_max bind]. unfold scaled.
  destruct (Qeq_bool (amax x l) (amin x l)); [|reflexivity].
  unfold np_ones. rewrite map_const_repeat. reflexivity.
Qed.

Lemma calculate_risk_score_closed
      (features_df : DataFrame) (r0 : FeatureRecord) (rs : list FeatureRecord)
      (s : MinMaxScaler.t) :
  rows features_df = r0 :: rs ->
  MinMaxScaler.fit (select features_df) = Ok s ->
  let lo := amin (raw_of s r0) (map (raw_of s) rs) in
  let hi := amax (raw_of s r0) (map (raw_of s) rs) in
  calculate_risk_score features_df =
  (set_score features_df (map (final_score s lo hi) (rows features_df)),
   Ok (map (fun r => (wallet_id r, final_score s lo hi r)) (rows features_df))).
Proof.
  intros Hrows Hfit lo hi.
  unfold calculate_risk_score, raw_scores, MinMaxScaler.fit_transform.
  rewrite Hfit. cbn [bind].
  rewrite weighted_scores_map. unfold MinMaxScaler.transform, select.
  rewrite !map_map.
  change (fun x : FeatureRecord =>
            raw_score (fun c => get x c * MinMaxScaler.scale_ s c
                                + MinMaxScaler.min_ s c))
    with (raw_of s).
  rewrite Hrows.
  change (map (raw_of s) (r0 :: rs)) with (raw_of s r0 :: map (raw_of s) rs).
  rewrite rescale_cons. fold lo hi. cbn [bind].
  change (raw_of s r0 :: map (raw_of s) rs) with (map (raw_of s) (r0 :: rs)).
  rewrite !map_map. unfold set_score. cbn [rows]. rewrite Hrows.
  rewrite combine_map_same. reflexivity.
Qed.

(** ** The fitted scaler *)

Lemma ten_eps_pos : 0 < 10 * MinMaxScaler.eps.
Proof. reflexivity. Qed.

Lemma handle_zeros_in_scale_pos (x : Q) :
  0 < MinMaxScaler.handle_zeros_in_scale x.
Proof.
  unfold MinMaxScaler.handle_zeros_in_scale.
  destruct (x ?= 10 * MinMaxScaler.eps) eqn:E.
  - apply Qeq_alt in E. rewrite E. apply ten_eps_pos.
  - reflexivity.
  - apply Qgt_alt in E. eapply Qlt_trans; [apply ten_eps_pos | exact E].
Qed.

#[local] Instance handle_zeros_in_scale_comp :
  Proper (Qeq ==> Qeq) MinMaxScaler.handle_zeros_in_scale.
Proof.
  intros x y E. unfold MinMaxScaler.handle_zeros_in_scale.
  rewrite (Qcompare_comp x y E (10 * MinMaxScaler.eps) (10 * MinMaxScaler.eps)
             (Qeq_refl _)).
  destruct (y ?= 10 * MinMaxScaler.eps); auto with qarith.
Qed.

Section Fitted.

Variables (X : list Row) (s : MinMaxScaler.t).
Hypothesis Hfit : fitted X s.

Lemma data_min_le (r : Row) (c : Col.t) :
  In r X -> MinMaxScaler.data_min_ s c <= r c.
Proof.
  intros Hr. destruct (fitted_min X s Hfit c) as (x & X' & -> & ->).
  apply amin_lower. change (x c :: map (fun r => r c) X')
    with (map (fun r : Row => r c) (x :: X')).
  now apply (in_map (fun r : Row => r c)).
Qed.

Lemma data_max_ge (r : Row) (c : Col.t) :
  In r X -> r c <= MinMaxScaler.data_max_ s c.
Proof.
  intros Hr. destruct (fitted_max X s Hfit c) as (x & X' & -> & ->).
  apply amax_upper. change (x c :: map (fun r => r c) X')
    with (map (fun r : Row => r c) (x :: X')).
  now apply (in_map (fun r : Row => r c)).
Qed.

Lemma scale_pos (c : Col.t) : 0 < MinMaxScaler.scale_ s c.
Proof.
  rewrite (fitted_scale X s Hfit c).
  apply Qlt_shift_div_l; [apply handle_zeros_in_scale_pos | reflexivity].
Qed.

(** [transform] computes [(v - data_min) * scale]. *)
Lemma normalized_shift (r : Row) (c : Col.t) :
  normalized s r c
  == (r c - MinMaxScaler.data_min_ s c) * MinMaxScaler.scale_ s c.
Proof.
  unfold normalized. rewrite (fitted_shift X s Hfit c). ring.
Qed.

Lemma normalized_constant (r : Row) (c : Col.t) :
  In r X ->
  MinMaxScaler.data_max_ s c == MinMaxScaler.data_min_ s c ->
  normalized s r c == 0.
Proof.
  intros Hr E. rewrite normalized_shift.
  assert (r c == MinMaxScaler.data_min_ s c) as ->.
  { apply Qle_antisym; [rewrite <- E; now apply data_max_ge
                       | now apply data_min_le]. }
  ring.
Qed.

Lemma normalized_mono (r r' : Row) (c : Col.t) :
  r c <= r' c -> normalized s r c <= normalized s r' c.
Proof.
  intros H. rewrite !normalized_shift.
  apply Qmult_le_compat_r; [lra | apply Qlt_le_weak, scale_pos].
Qed.

Lemma normalized_ext (r r' : Row) (c : Col.t) :
  r c == r' c -> normalized s r c == normalized s r' c.
Proof. intros H. unfold normalized. now rewrite H. Qed.

End Fitted.

(** ** The weighted sum as a function of the normalized row *)

Lemma raw_score_unfold (r : Row) :
  raw_score r
  = 0 + r Col.borrow_count * - 0.2 + r Col.repayment_ratio * 0.3
    + r Col.collateral_ratio * 0.3 + r Col.liquidation_count * - 0.25
    + r Col.total_volume * 0.2 + r Col.activity_level * 0.25
    + r Col.no_compound_activity * - 0.1.
Proof. reflexivity. Qed.

Lemma raw_score_ext (r r' : Row) :
  (forall c, r c == r' c) -> raw_score r == raw_score r'.
Proof.
  intros H. rewrite !raw_score_unfold.
  rewrite (H Col.borrow_count), (H Col.repayment_ratio),
    (H Col.collateral_ratio), (H Col.liquidation_count),
    (H Col.total_volume), (H Col.activity_level),
    (H Col.no_compound_activity).
  reflexivity.
Qed.

Lemma raw_score_zero (r : Row) :
  (forall c, r c == 0) -> raw_score r == 0.
Proof.
  intros H. rewrite (raw_score_ext r (fun _ => 0) H). reflexivity.
Qed.

(** Only the liquidation column differs, and its weight is negative. *)
Lemma raw_score_liquidation (r r' : Row) :
  (forall c, c <> Col.liquidation_count -> r c == r' c) ->
  r' Col.liquidation_count <= r Col.liquidation_count ->
  raw_score r <= raw_score r'.
Proof.
  intros H Hl. rewrite !raw_score_unfold.
  assert (H1 := H Col.borrow_count ltac:(discriminate)).
  assert (H2 := H Col.repayment_ratio ltac:(discriminate)).
  assert (H3 := H Col.collateral_ratio ltac:(discriminate)).
  assert (H4 := H Col.total_volume ltac:(discriminate)).
  assert (H5 := H Col.activity_level ltac:(discriminate)).
  assert (H6 := H Col.no_compound_activity ltac:(discriminate)).
  lra.
Qed.

(** ** Rescaling to the reporting range *)

Lemma scaled_bounds (lo hi x : Q) :
  lo <= x -> x <= hi -> ~ hi == lo ->
  100 <= (x - lo) / (hi - lo) * 900 + 100 <= 1000.
Proof.
  intros Hlo Hhi Hne.
  assert (Hd : 0 < hi - lo).
  { destruct (Qlt_le_dec lo hi) as [H|H]; [lra|].
    exfalso. apply Hne. apply Qle_antisym; lra. }
  assert (H0 : 0 <= (x - lo) / (hi - lo)).
  { apply Qle_shift_div_l; [exact Hd | lra]. }
  assert (H1 : (x - lo) / (hi - lo) <= 1).
  { apply Qle_shift_div_r; [exact Hd | lra]. }
  lra.
Qed.

Lemma scaled_mono (lo hi x y : Q) :
  lo <= hi -> x <= y -> scaled lo hi x <= scaled lo hi y.
Proof.
  intros Hle Hxy. unfold scaled.
  destruct (Qeq_bool hi lo) eqn:E; [apply Qle_refl|].
  apply Qeq_bool_neq in E.
  assert (Hd : 0 < hi - lo).
  { destruct (Qlt_le_dec lo hi) as [H|H]; [lra|].
    exfalso. apply E. apply Qle_antisym; lra. }
  assert (H : (x - lo) / (hi - lo) <= (y - lo) / (hi - lo)).
  { unfold Qdiv. apply Qmult_le_compat_r; [lra|].
    apply Qlt_le_weak, Qinv_lt_0_compat, Hd. }
  lra.
Qed.

#[local] Instance scaled_comp : Proper (Qeq ==> Qeq ==> Qeq ==> Qeq) scaled.
Proof.
  intros lo lo' El hi hi' Eh x x' Ex. unfold scaled.
  rewrite (Qeqb_comp hi hi' Eh lo lo' El).
  destruct (Qeq_bool hi' lo'); [reflexivity|].
  rewrite El, Eh, Ex. reflexivity.
Qed.

Lemma final_score_floor (s : MinMaxScaler.t) (lo hi : Q) (r : FeatureRecord) :
  final_score s lo hi r = Qfloor (np_clip 0 1000 (scaled lo hi (raw_of s r))).
Proof. apply astype_int_clip. Qed.

Lemma final_score_range (s : MinMaxScaler.t) (lo hi : Q) (r : FeatureRecord) :
  (0 <= final_score s lo hi r <= 1000)%Z.
Proof.
  rewrite final_score_floor.
  destruct (np_clip_bounds (scaled lo hi (raw_of s r))) as [H0 H1].
  split.
  - apply (Qfloor_resp_le 0 _ H0).
  - apply (Qfloor_resp_le _ 1000 H1).
Qed.

Lemma final_score_mono (s : MinMaxScaler.t) (lo hi : Q) (a b : FeatureRecord) :
  lo <= hi -> raw_of s a <= raw_of s b ->
  (final_score s lo hi a <= final_score s lo hi b)%Z.
Proof.
  intros Hle H. rewrite !final_score_floor.
  apply Qfloor_resp_le, np_clip_mono, scaled_mono; assumption.
Qed.

(** The result of the call does not depend on a ["score"] column that the
    frame may already carry. *)
Lemma calculate_risk_score_rows (features_df features_df' : DataFrame) :
  rows features_df = rows features_df' ->
  snd (calculate_risk_score features_df)
  = snd (calculate_risk_score features_df').
Proof.
  intros H. unfold calculate_risk_score, raw_scores, select, set_score.
  cbn [rows]. rewrite H.
  destruct (_ <- _ ;; _); reflexivity.
Qed.

(** Every non-empty frame is scored: closed form with the fitted scaler. *)
Lemma calculate_risk_score_nonempty
      (r0 : FeatureRecord) (rs : list FeatureRecord) (sc : option (list Z)) :
  exists s lo hi,
    fitted (map get (r0 :: rs)) s /\
    lo = amin (raw_of s r0) (map (raw_of s) rs) /\
    hi = amax (raw_of s r0) (map (raw_of s) rs) /\
    calculate_risk_score (mkDataFrame (r0 :: rs) sc)
    = (mkDataFrame (r0 :: rs) (Some (map (final_score s lo hi) (r0 :: rs))),
       Ok (map (fun r => (wallet_id r, final_score s lo hi r)) (r0 :: rs))).
Proof.
  destruct (fit_nonempty (get r0) (map get rs)) as [s Hs].
  exists s, (amin (raw_of s r0) (map (raw_of s) rs)),
    (amax (raw_of s r0) (map (raw_of s) rs)).
  split; [apply fit_fitted; exact Hs|].
  split; [reflexivity|]. split; [reflexivity|].
  apply (calculate_risk_score_closed (mkDataFrame (r0 :: rs) sc) r0 rs s);
    [reflexivity | exact Hs].
Qed.

(** ** Shape of the result, failures and the input frame *)

(** C3: a frame with zero records is rejected (the scaler's [ValueError],
    the scorer's invalid-input failure, and the frame is left as it was),
    while every frame with at least one record is scored, whatever the
    values of its records: a single record, identical records and negative
    feature values included. *)
Theorem C3_empty_rejected_nonempty_scored :
  (forall sc,
      calculate_risk_score (mkDataFrame [] sc)
      = (mkDataFrame [] sc, Raise ValueError)) /\
  (forall r rs sc, exists out,
        snd (calculate_risk_score (mkDataFrame (r :: rs) sc)) = Ok out).
Proof.
  split.
  - intros sc. reflexivity.
  - intros r rs sc.
    destruct (calculate_risk_score_nonempty r rs sc) as (s & lo & hi & _ & _ & _ & E).
    rewrite E. eexists. reflexivity.
Qed.

(** C8: a frame of N >= 1 records yields exactly N score records, whose
    wallet identifiers are those of the input records, copied in order, and
    every score is an integer between 0 and 1000. *)
Theorem C8_output_shape_and_range :
  forall r rs sc, exists out,
    snd (calculate_risk_score (mkDataFrame (r :: rs) sc)) = Ok out /\
    length out = length (r :: rs) /\
    map fst out = map wallet_id (r :: rs) /\
    Forall (fun p => (0 <= snd p <= 1000)%Z) out.
Proof.
  intros r rs sc.
  destruct (calculate_risk_score_nonempty r rs sc) as (s & lo & hi & _ & _ & _ & E).
  rewrite E. eexists. split; [reflexivity|].
  split; [apply length_map|].
  split; [rewrite map_map; reflexivity|].
  apply Forall_forall. intros p Hp. apply in_map_iff in Hp.
  destruct Hp as (x & <- & _). apply final_score_range.
Qed.

(** C2, as stated, fails: a frame with two records of the same wallet is
    scored like any other frame. *)
Lemma C2_duplicate_wallet_id_scored :
  map wallet_id (rows duplicate_batch) = ["W1"%string; "W1"%string] /\
  snd (calculate_risk_score duplicate_batch)
  = Ok [("W1"%string, 100%Z); ("W1"%string, 1000%Z)].
Proof. split; vm_compute; reflexivity. Qed.

(** C2, amended: a frame in which two records carry the same wallet
    identifier is not rejected; the scorer returns one score record per
    input record, so the shared identifier appears once for each of its
    records. *)
Theorem C2_duplicates_not_rejected :
  forall features_df i j a b,
    i <> j ->
    nth_error (rows features_df) i = Some a ->
    nth_error (rows features_df) j = Some b ->
    wallet_id a = wallet_id b ->
    exists out sa sb,
      snd (calculate_risk_score features_df) = Ok out /\
      length out = length (rows features_df) /\
      nth_error out i = Some (wallet_id a, sa) /\
      nth_error out j = Some (wallet_id a, sb).
Proof.
  intros [rws sc] i j a b _ Ha Hb Hid. cbn [rows] in *.
  destruct rws as [|r0 rs]; [destruct i; discriminate|].
  destruct (calculate_risk_score_nonempty r0 rs sc) as (s & lo & hi & _ & _ & _ & E).
  rewrite E. cbn [snd].
  exists (map (fun r => (wallet_id r, final_score s lo hi r)) (r0 :: rs)),
    (final_score s lo hi a), (final_score s lo hi b).
  split; [reflexivity|]. split; [apply length_map|].
  split.
  - apply (map_nth_error (fun r => (wallet_id r, final_score s lo hi r)) _ _ Ha).
  - rewrite Hid.
    apply (map_nth_error (fun r => (wallet_id r, final_score s lo hi r)) _ _ Hb).
Qed.

Lemma C2_duplicates_not_rejected_witness :
  exists out sa sb,
    snd (calculate_risk_score duplicate_batch) = Ok out /\
    length out = length (rows duplicate_batch) /\
    nth_error out 0 = Some ("W1"%string, sa) /\
    nth_error out 1 = Some ("W1"%string, sb).
Proof.
  apply (C2_duplicates_not_rejected duplicate_batch 0 1
           (mkFeatureRecord "W1" 0 1 1 0 0 0 1)
           (mkFeatureRecord "W1" 5 0.5 1.5 0 10 0.9 0)).
  - discriminate.
  - reflexivity.
  - reflexivity.
  - reflexivity.
Defined.

(** C9, as stated, fails: the call assigns a ["score"] column on the frame
    it was given. *)
Lemma C9_input_frame_mutated :
  score fixture = None /\
  score (fst (calculate_risk_score fixture)) = Some [616%Z; 1000%Z; 100%Z] /\
  fst (calculate_risk_score fixture) <> fixture.
Proof.
  split; [reflexivity|].
  assert (E : score (fst (calculate_risk_score fixture))
              = Some [616%Z; 1000%Z; 100%Z]) by (vm_compute; reflexivity).
  split; [exact E|].
  intros H. apply (f_equal score) in H. rewrite E in H.
  change (score fixture) with (@None (list Z)) in H. discriminate H.
Qed.

(** C9, amended: a scoring run leaves every input record (wallet identifier
    and the seven features) unchanged and returns fresh score records, but
    it writes the integer scores into a ["score"] column of the input frame;
    a run that fails leaves the frame untouched. *)
Theorem C9_records_kept_score_column_written :
  forall features_df,
    rows (fst (calculate_risk_score features_df)) = rows features_df /\
    match snd (calculate_risk_score features_df) with
    | Ok out =>
        score (fst (calculate_risk_score features_df)) = Some (map snd out)
    | Raise _ => fst (calculate_risk_score features_df) = features_df
    end.
Proof.
  intros [rws sc]. destruct rws as [|r0 rs].
  - split; reflexivity.
  - destruct (calculate_risk_score_nonempty r0 rs sc) as (s & lo & hi & _ & _ & _ & E).
    rewrite E. cbn [fst snd rows score]. split; [reflexivity|].
    rewrite map_map. reflexivity.
Qed.

(** ** Frames whose records all have the same features *)

Lemma data_min_In (X : list Row) (s : MinMaxScaler.t) (c : Col.t) :
  fitted X s -> exists r, In r X /\ MinMaxScaler.data_min_ s c = r c.
Proof.
  intros Hfit. destruct (fitted_min X s Hfit c) as (x & X' & -> & ->).
  assert (H := amin_In (map (fun r : Row => r c) X') (x c)).
  change (x c :: map (fun r : Row => r c) X')
    with (map (fun r : Row => r c) (x :: X')) in H.
  apply in_map_iff in H. destruct H as (r & E & Hr).
  exists r. split; [exact Hr | now rewrite E].
Qed.

Lemma data_max_In (X : list Row) (s : MinMaxScaler.t) (c : Col.t) :
  fitted X s -> exists r, In r X /\ MinMaxScaler.data_max_ s c = r c.
Proof.
  intros Hfit. destruct (fitted_max X s Hfit c) as (x & X' & -> & ->).
  assert (H := amax_In (map (fun r : Row => r c) X') (x c)).
  change (x c :: map (fun r : Row => r c) X')
    with (map (fun r : Row => r c) (x :: X')) in H.
  apply in_map_iff in H. destruct H as (r & E & Hr).
  exists r. split; [exact Hr | now rewrite E].
Qed.

Lemma identical_rows_raw_zero
      (r0 : FeatureRecord) (rs : list FeatureRecord) (s : MinMaxScaler.t) :
  fitted (map get (r0 :: rs)) s ->
  Forall (fun r' => forall c, get r' c == get r0 c) rs ->
  forall x, In x (r0 :: rs) -> raw_of s x == 0.
Proof.
  intros Hfit Hall.
  assert (Hsame : forall x, In x (r0 :: rs) -> forall c, get x c == get r0 c).
  { intros x [<-|Hx] c; [reflexivity|].
    rewrite Forall_forall in Hall. now apply Hall. }
  assert (Hrow : forall y c, In y (map get (r0 :: rs)) -> y c == get r0 c).
  { intros y c Hy. apply in_map_iff in Hy. destruct Hy as (x & <- & Hx).
    now apply Hsame. }
  intros x Hx. unfold raw_of. apply raw_score_zero. intros c.
  apply (normalized_constant _ _ Hfit); [now apply in_map|].
  destruct (data_min_In _ _ c Hfit) as (y & Hy & ->).
  destruct (data_max_In _ _ c Hfit) as (z & Hz & ->).
  rewrite (Hrow y c Hy), (Hrow z c Hz). reflexivity.
Qed.

(** C5: when all records of a frame have the same seven features, and in
    particular when the frame has a single record, every wallet receives
    the score 500. *)
Theorem C5_identical_records_score_500 :
  forall r rs sc,
    Forall (fun r' => forall c, get r' c == get r c) rs ->
    snd (calculate_risk_score (mkDataFrame (r :: rs) sc))
    = Ok (map (fun x => (wallet_id x, 500%Z)) (r :: rs)).
Proof.
  intros r rs sc Hall.
  destruct (calculate_risk_score_nonempty r rs sc)
    as (s & lo & hi & Hfit & Hlo & Hhi & E).
  rewrite E. cbn [snd]. f_equal. apply map_ext_in. intros x Hx. f_equal.
  assert (Hraw := identical_rows_raw_zero r rs s Hfit Hall).
  assert (Hin : forall y, In y (raw_of s r :: map (raw_of s) rs) -> y == 0).
  { intros y Hy.
    change (raw_of s r :: map (raw_of s) rs)
      with (map (raw_of s) (r :: rs)) in Hy.
    apply in_map_iff in Hy. destruct Hy as (z & <- & Hz). now apply Hraw. }
  assert (E0 : Qeq_bool hi lo = true).
  { apply Qeq_eq_bool. subst lo hi.
    rewrite (Hin _ (amin_In _ _)), (Hin _ (amax_In _ _)). reflexivity. }
  unfold final_score, scaled. rewrite E0. reflexivity.
Qed.

Lemma C5_identical_records_score_500_witness :
  snd (calculate_risk_score
         (mkDataFrame [mkFeatureRecord "A" 3 0.5 1.5 1 10 0.9 0;
                       mkFeatureRecord "B" 3 0.5 1.5 1 10 0.9 0] None))
  = Ok [("A"%string, 500%Z); ("B"%string, 500%Z)].
Proof.
  apply (C5_identical_records_score_500
           (mkFeatureRecord "A" 3 0.5 1.5 1 10 0.9 0)
           [mkFeatureRecord "B" 3 0.5 1.5 1 10 0.9 0] None).
  constructor; [|constructor].
  intros c. destruct c; reflexivity.
Defined.

(** ** The stages of the scorer *)

Lemma calculate_risk_score_stages
      (features_df : DataFrame) (raw scores : list Q) :
  raw_scores features_df = Ok raw ->
  rescale raw = Ok scores ->
  calculate_risk_score features_df
  = (set_score features_df (map astype_int (map (np_clip 0 1000) scores)),
     Ok (combine (map wallet_id (rows features_df))
                 (map astype_int (map (np_clip 0 1000) scores)))).
Proof.
  intros Hraw Hres. unfold calculate_risk_score.
  rewrite Hraw. cbn [bind]. rewrite Hres. reflexivity.
Qed.

Lemma np_min_spec (a : list Q) (m : Q) :
  np_min a = Ok m -> In m a /\ forall y, In y a -> m <= y.
Proof.
  destruct a as [|x l]; simpl; intros H; [discriminate|].
  injection H as <-. split; [apply amin_In | apply amin_lower].
Qed.

Lemma np_max_spec (a : list Q) (m : Q) :
  np_max a = Ok m -> In m a /\ forall y, In y a -> y <= m.
Proof.
  destruct a as [|x l]; simpl; intros H; [discriminate|].
  injection H as <-. split; [apply amax_In | apply amax_upper].
Qed.

Lemma rescale_distinct (raw : list Q) (min_raw max_raw : Q) :
  np_min raw = Ok min_raw ->
  np_max raw = Ok max_raw ->
  ~ max_raw == min_raw ->
  rescale raw
  = Ok (map (fun x => (x - min_raw) / (max_raw - min_raw) * 900 + 100) raw).
Proof.
  intros Hmin Hmax Hne. unfold rescale. rewrite Hmin, Hmax. cbn [bind].
  destruct (Qeq_bool max_raw min_raw) eqn:E; [|reflexivity].
  apply Qeq_bool_eq in E. contradiction.
Qed.

Lemma map_fixed {A : Type} (f : A -> A) (l : list A) :
  (forall x, In x l -> f x = x) -> map f l = l.
Proof.
  intros H. rewrite <- (map_id l) at 2. now apply map_ext_in.
Qed.

Lemma Forall2_map_right {A B : Type} (P : A -> B -> Prop) (f : A -> B)
      (l : list A) :
  (forall x, In x l -> P x (f x)) -> Forall2 P l (map f l).
Proof.
  induction l as [|a l IH]; intros H; simpl; constructor.
  - apply H. now left.
  - apply IH. intros x Hx. apply H. now right.
Qed.

(** C10: when the weighted scores are not all equal, every rescaled score
    lies between 100 and 1000 before any clipping, a wallet with the
    minimum weighted score gets exactly 100 and one with the maximum gets
    exactly 1000 (such wallets exist), and clipping to [0, 1000] changes
    nothing: the returned scores are the truncated rescaled scores. *)
Theorem C10_clip_is_identity :
  forall features_df raw min_raw max_raw,
    raw_scores features_df = Ok raw ->
    np_min raw = Ok min_raw ->
    np_max raw = Ok max_raw ->
    ~ max_raw == min_raw ->
    exists rescaled,
      rescale raw = Ok rescaled /\
      Forall (fun v => 100 <= v <= 1000) rescaled /\
      Forall2 (fun x v =>
                 (x == min_raw -> v == 100 /\ astype_int v = 100%Z) /\
                 (x == max_raw -> v == 1000 /\ astype_int v = 1000%Z))
              raw rescaled /\
      In min_raw raw /\ In max_raw raw /\
      map (np_clip 0 1000) rescaled = rescaled /\
      snd (calculate_risk_score features_df)
      = Ok (combine (map wallet_id (rows features_df))
                    (map astype_int rescaled)).
Proof.
  intros features_df raw min_raw max_raw Hraw Hmin Hmax Hne.
  assert (Hres := rescale_distinct _ _ _ Hmin Hmax Hne).
  destruct (np_min_spec _ _ Hmin) as [Hmin_in Hlo].
  destruct (np_max_spec _ _ Hmax) as [Hmax_in Hhi].
  set (f := fun x => (x - min_raw) / (max_raw - min_raw) * 900 + 100) in *.
  assert (Hb : forall x, In x raw -> 100 <= f x <= 1000).
  { intros x Hx. apply scaled_bounds; auto. }
  assert (Hd : ~ max_raw - min_raw == 0).
  { intros E. apply Hne. lra. }
  assert (Hclip : map (np_clip 0 1000) (map f raw) = map f raw).
  { apply map_fixed. intros v Hv. apply in_map_iff in Hv.
    destruct Hv as (x & <- & Hx). apply np_clip_id.
    destruct (Hb x Hx). split; lra. }
  exists (map f raw).
  split; [exact Hres|].
  split.
  { apply Forall_forall. intros v Hv. apply in_map_iff in Hv.
    destruct Hv as (x & <- & Hx). now apply Hb. }
  split.
  { apply Forall2_map_right. intros x Hx. split; intros E.
    - assert (Ev : f x == 100).
      { unfold f. rewrite E. field. exact Hd. }
      split; [exact Ev|].
      rewrite astype_int_nonneg by (rewrite Ev; discriminate).
      rewrite Ev. reflexivity.
    - assert (Ev : f x == 1000).
      { unfold f. rewrite E. field. exact Hd. }
      split; [exact Ev|].
      rewrite astype_int_nonneg by (rewrite Ev; discriminate).
      rewrite Ev. reflexivity. }
  split; [exact Hmin_in|]. split; [exact Hmax_in|].
  split; [exact Hclip|].
  rewrite (calculate_risk_score_stages _ _ _ Hraw Hres).
  cbn [snd]. rewrite Hclip. reflexivity.
Qed.

Lemma C10_clip_is_identity_witness :
  exists rescaled,
    rescale fixture_raw = Ok rescaled /\
    Forall (fun v => 100 <= v <= 1000) rescaled /\
    Forall2 (fun x v =>
               (x == fixture_min_raw -> v == 100 /\ astype_int v = 100%Z) /\
               (x == fixture_max_raw -> v == 1000 /\ astype_int v = 1000%Z))
            fixture_raw rescaled /\
    In fixture_min_raw fixture_raw /\ In fixture_max_raw fixture_raw /\
    map (np_clip 0 1000) rescaled = rescaled /\
    snd (calculate_risk_score fixture)
    = Ok (combine (map wallet_id (rows fixture)) (map astype_int rescaled)).
Proof.
  apply (C10_clip_is_identity
           fixture fixture_raw fixture_min_raw fixture_max_raw).
  - vm_compute. reflexivity.
  - vm_compute. reflexivity.
  - vm_compute. reflexivity.
  - vm_compute. discriminate.
Defined.

(** ** Min-max normalization *)












(** ** Reordering the records *)

Lemma Permutation_same_elements (l l' : list Q) :
  Permutation l l' -> same_elements l l'.
Proof.
  intros P. split; intros y Hy; exists y; split; try reflexivity.
  - apply (Permutation_in _ P Hy).
  - apply (Permutation_in _ (Permutation_sym P) Hy).
Qed.

Section Reordered.

Variables (X X' : list Row) (s s' : MinMaxScaler.t).
Hypothesis Hperm : Permutation X X'.
Hypothesis Hfit : fitted X s.
Hypothesis Hfit' : fitted X' s'.

Lemma data_min_perm (c : Col.t) :
  MinMaxScaler.data_min_ s c == MinMaxScaler.data_min_ s' c.
Proof.
  destruct (fitted_min X s Hfit c) as (x & X0 & E & ->).
  destruct (fitted_min X' s' Hfit' c) as (x' & X0' & E' & ->).
  apply amin_same_elements, Permutation_same_elements.
  change (Permutation (map (fun r : Row => r c) (x :: X0))
                      (map (fun r : Row => r c) (x' :: X0'))).
  rewrite <- E, <- E'. now apply Permutation_map.
Qed.

Lemma data_max_perm (c : Col.t) :
  MinMaxScaler.data_max_ s c == MinMaxScaler.data_max_ s' c.
Proof.
  destruct (fitted_max X s Hfit c) as (x & X0 & E & ->).
  destruct (fitted_max X' s' Hfit' c) as (x' & X0' & E' & ->).
  apply amax_same_elements, Permutation_same_elements.
  change (Permutation (map (fun r : Row => r c) (x :: X0))
                      (map (fun r : Row => r c) (x' :: X0'))).
  rewrite <- E, <- E'. now apply Permutation_map.
Qed.

Lemma scale_perm (c : Col.t) :
  MinMaxScaler.scale_ s c == MinMaxScaler.scale_ s' c.
Proof.
  rewrite (fitted_scale X s Hfit c), (fitted_scale X' s' Hfit' c).
  rewrite (data_min_perm c), (data_max_perm c). reflexivity.
Qed.

Lemma normalized_perm (r : Row) (c : Col.t) :
  normalized s r c == normalized s' r c.
Proof.
  rewrite (normalized_shift X s Hfit), (normalized_shift X' s' Hfit').
  rewrite (data_min_perm c), (scale_perm c). reflexivity.
Qed.

Lemma raw_of_perm (r : FeatureRecord) : raw_of s r == raw_of s' r.
Proof.
  unfold raw_of. apply raw_score_ext. intros c. apply normalized_perm.
Qed.

End Reordered.

Lemma raw_of_same_elements
      (s s' : MinMaxScaler.t) (l l' : list FeatureRecord) :
  (forall r, raw_of s r == raw_of s' r) ->
  Permutation l l' ->
  same_elements (map (raw_of s) l) (map (raw_of s') l').
Proof.
  intros Hraw P. split; intros y Hy; apply in_map_iff in Hy;
    destruct Hy as (r & <- & Hr).
  - exists (raw_of s' r). split; [|apply Hraw].
    apply in_map. apply (Permutation_in _ P Hr).
  - exists (raw_of s r). split; [|apply Hraw].
    apply in_map. apply (Permutation_in _ (Permutation_sym P) Hr).
Qed.

Lemma final_score_ext (s s' : MinMaxScaler.t) (lo lo' hi hi' : Q)
      (r : FeatureRecord) :
  raw_of s r == raw_of s' r -> lo == lo' -> hi == hi' ->
  final_score s lo hi r = final_score s' lo' hi' r.
Proof.
  intros Er El Eh. rewrite !final_score_floor.
  apply Qfloor_comp. rewrite Er, El, Eh. reflexivity.
Qed.

Lemma calculate_risk_score_keeps_rows (features_df : DataFrame) :
  rows (fst (calculate_risk_score features_df)) = rows features_df.
Proof.
  unfold calculate_risk_score. destruct (_ <- _ ;; _); reflexivity.
Qed.

(** C6: scoring a frame and scoring any reordering of its records give
    the same (wallet, score) pairs (as multisets, hence as sets), and
    scoring the same frame a second time returns what the first run
    returned. *)
Theorem C6_order_irrelevant_and_repeatable :
  forall features_df features_df',
    rows features_df <> [] ->
    Permutation (rows features_df) (rows features_df') ->
    (exists out out',
        snd (calculate_risk_score features_df) = Ok out /\
        snd (calculate_risk_score features_df') = Ok out' /\
        Permutation out out') /\
    snd (calculate_risk_score (fst (calculate_risk_score features_df)))
    = snd (calculate_risk_score features_df).
Proof.
  intros [rws sc] [rws' sc'] Hne P. cbn [rows] in *. split.
  - destruct rws as [|r0 rs]; [contradiction|].
    destruct rws' as [|r0' rs'];
      [apply Permutation_sym, Permutation_nil in P; discriminate|].
    destruct (calculate_risk_score_nonempty r0 rs sc)
      as (s & lo & hi & Hfit & Hlo & Hhi & E).
    destruct (calculate_risk_score_nonempty r0' rs' sc')
      as (s' & lo' & hi' & Hfit' & Hlo' & Hhi' & E').
    rewrite E, E'. cbn [snd]. do 2 eexists.
    split; [reflexivity|]. split; [reflexivity|].
    assert (PX : Permutation (map get (r0 :: rs)) (map get (r0' :: rs')))
      by now apply Permutation_map.
    assert (Hraw := raw_of_perm _ _ s s' PX Hfit Hfit').
    assert (SE := raw_of_same_elements s s' _ _ Hraw P).
    assert (El : lo == lo').
    { subst lo lo'. now apply amin_same_elements. }
    assert (Eh : hi == hi').
    { subst hi hi'. now apply amax_same_elements. }
    rewrite (map_ext (fun r => (wallet_id r, final_score s' lo' hi' r))
                     (fun r => (wallet_id r, final_score s lo hi r))).
    + now apply Permutation_map.
    + intros r. f_equal. symmetry. now apply final_score_ext.
  - apply calculate_risk_score_rows, calculate_risk_score_keeps_rows.
Qed.

Lemma C6_order_irrelevant_and_repeatable_witness :
  (exists out out',
      snd (calculate_risk_score fixture) = Ok out /\
      snd (calculate_risk_score (DataFrame_of [W3; W1; W2])) = Ok out' /\
      Permutation out out') /\
  snd (calculate_risk_score (fst (calculate_risk_score fixture)))
  = snd (calculate_risk_score fixture).
Proof.
  apply (C6_order_irrelevant_and_repeatable
           fixture (DataFrame_of [W3; W1; W2])).
  - discriminate.
  - simpl. apply Permutation_sym.
    apply (Permutation_cons_app [W1; W2] [] W3). simpl. apply Permutation_refl.
Defined.

(** ** Liquidations lower the score *)

Lemma raw_of_liquidation (X : list Row) (s : MinMaxScaler.t)
      (a b : FeatureRecord) :
  fitted X s ->
  (forall c, c <> Col.liquidation_count -> get a c == get b c) ->
  liquidation_count b <= liquidation_count a ->
  raw_of s a <= raw_of s b.
Proof.
  intros Hfit Hsame Hliq. unfold raw_of. apply raw_score_liquidation.
  - intros c Hc. apply normalized_ext. now apply Hsame.
  - apply (normalized_mono X s Hfit). exact Hliq.
Qed.

(** C7: of two wallets of a frame that agree on every feature but the
    liquidation count, the one with more liquidations receives a score that
    is at most the score of the other. *)
Theorem C7_more_liquidations_not_better :
  forall features_df i j a b,
    nth_error (rows features_df) i = Some a ->
    nth_error (rows features_df) j = Some b ->
    (forall c, c <> Col.liquidation_count -> get a c == get b c) ->
    liquidation_count b < liquidation_count a ->
    exists out sa sb,
      snd (calculate_risk_score features_df) = Ok out /\
      nth_error out i = Some (wallet_id a, sa) /\
      nth_error out j = Some (wallet_id b, sb) /\
      (sa <= sb)%Z.
Proof.
  intros [rws sc] i j a b Ha Hb Hsame Hliq. cbn [rows] in *.
  destruct rws as [|r0 rs]; [destruct i; discriminate|].
  destruct (calculate_risk_score_nonempty r0 rs sc)
    as (s & lo & hi & Hfit & Hlo & Hhi & E).
  rewrite E. cbn [snd].
  exists (map (fun r => (wallet_id r, final_score s lo hi r)) (r0 :: rs)),
    (final_score s lo hi a), (final_score s lo hi b).
  split; [reflexivity|].
  split;
    [apply (map_nth_error (fun r => (wallet_id r, final_score s lo hi r))
              _ _ Ha)|].
  split;
    [apply (map_nth_error (fun r => (wallet_id r, final_score s lo hi r))
              _ _ Hb)|].
  apply final_score_mono.
  - subst lo hi. apply amin_le_amax.
  - apply (raw_of_liquidation _ s a b Hfit Hsame).
    apply Qlt_le_weak, Hliq.
Qed.

Lemma C7_more_liquidations_not_better_witness :
  exists out sa sb,
    snd (calculate_risk_score liquidated_batch) = Ok out /\
    nth_error out 3 = Some ("W4"%string, sa) /\
    nth_error out 1 = Some ("W2"%string, sb) /\
    (sa <= sb)%Z.
Proof.
  apply (C7_more_liquidations_not_better liquidated_batch 3 1 W4 W2).
  - reflexivity.
  - reflexivity.
  - intros c Hc. destruct c; try reflexivity. contradiction Hc. reflexivity.
  - reflexivity.
Defined.

(** * Feature extraction *)

(** ** The loop, branch by branch *)

Lemma extract_step_kind (st : Counters) (tx : Transaction) :
  extract_step st tx =
  let v := ether_of tx in
  let tv := c_total_volume st + v in
  let n := (c_tx_count st + 1)%Z in
  match kind tx with
  | Borrow =>
      mkCounters (c_borrow_count st + 1) (c_repayment_count st)
                 (c_total_borrowed st + v) (c_total_repaid st)
                 (c_collateral_deposited st) (c_liquidation_count st) tv n
  | Repay =>
      mkCounters (c_borrow_count st) (c_repayment_count st + 1)
                 (c_total_borrowed st) (c_total_repaid st + v)
                 (c_collateral_deposited st) (c_liquidation_count st) tv n
  | Mint =>
      mkCounters (c_borrow_count st) (c_repayment_count st)
                 (c_total_borrowed st) (c_total_repaid st)
                 (c_collateral_deposited st + v) (c_liquidation_count st) tv n
  | Liquidate =>
      mkCounters (c_borrow_count st) (c_repayment_count st)
                 (c_total_borrowed st) (c_total_repaid st)
                 (c_collateral_deposited st) (c_liquidation_count st + 1) tv n
  | Other =>
      mkCounters (c_borrow_count st) (c_repayment_count st)
                 (c_total_borrowed st) (c_total_repaid st)
                 (c_collateral_deposited st) (c_liquidation_count st) tv n
  end.
Proof.
  unfold extract_step, kind.
  destruct (contains (to_address_of tx) COMPOUND_CONTRACTS_values);
    [|reflexivity].
  destruct (startswith (lower (tx_input tx)) BORROW_SIG); [reflexivity|].
  destruct (startswith (lower (tx_input tx)) REPAY_SIG); [reflexivity|].
  destruct (startswith (lower (tx_input tx)) MINT_SIG); [reflexivity|].
  destruct (startswith (lower (tx_input tx)) LIQUIDATE_SIG); reflexivity.
Qed.

Lemma of_kind_cons (k : TxKind) (tx : Transaction) (txs : list Transaction) :
  of_kind k (tx :: txs)
  = if TxKind_eqb (kind tx) k then tx :: of_kind k txs else of_kind k txs.
Proof. reflexivity. Qed.

Lemma count_kind_cons (k : TxKind) (tx : Transaction) (txs : list Transaction) :
  count_kind k (tx :: txs)
  = ((if TxKind_eqb (kind tx) k then 1 else 0) + count_kind k txs)%Z.
Proof.
  unfold count_kind. rewrite of_kind_cons.
  destruct (TxKind_eqb (kind tx) k); simpl length; lia.
Qed.

Lemma ether_sum_cons (tx : Transaction) (txs : list Transaction) :
  ether_sum (tx :: txs) = ether_of tx + ether_sum txs.
Proof. reflexivity. Qed.

Lemma ether_sum_of_kind_cons (k : TxKind) (tx : Transaction)
      (txs : list Transaction) :
  ether_sum (of_kind k (tx :: txs))
  == (if TxKind_eqb (kind tx) k then ether_of tx else 0)
     + ether_sum (of_kind k txs).
Proof.
  rewrite of_kind_cons. destruct (TxKind_eqb (kind tx) k); simpl; ring.
Qed.

Lemma count_kind_nonneg (k : TxKind) (txs : list Transaction) :
  (0 <= count_kind k txs)%Z.
Proof. unfold count_kind. lia. Qed.

(** ** What the counters hold after the loop *)

Lemma loop_counts (txs : list Transaction) :
  forall st,
    let st' := fold_left extract_step txs st in
    c_borrow_count st' = (c_borrow_count st + count_kind Borrow txs)%Z /\
    c_repayment_count st' = (c_repayment_count st + count_kind Repay txs)%Z /\
    c_liquidation_count st'
    = (c_liquidation_count st + count_kind Liquidate txs)%Z /\
    c_tx_count st' = (c_tx_count st + Z.of_nat (length txs))%Z.
Proof.
  induction txs as [|tx txs IH]; intros st; cbn zeta.
  - unfold count_kind. simpl. repeat split; lia.
  - cbn [fold_left]. specialize (IH (extract_step st tx)). cbn zeta in IH.
    destruct IH as (H1 & H2 & H3 & H4).
    rewrite H1, H2, H3, H4, !count_kind_cons, extract_step_kind.
    cbn zeta. replace (Z.of_nat (length (tx :: txs)))
      with (1 + Z.of_nat (length txs))%Z by (simpl length; lia).
    destruct (kind tx); cbn [TxKind_eqb c_borrow_count c_repayment_count
      c_liquidation_count c_tx_count]; repeat split; lia.
Qed.

Lemma loop_sums (txs : list Transaction) :
  forall st,
    let st' := fold_left extract_step txs st in
    c_total_volume st' == c_total_volume st + ether_sum txs /\
    c_total_borrowed st'
    == c_total_borrowed st + ether_sum (of_kind Borrow txs) /\
    c_total_repaid st' == c_total_repaid st + ether_sum (of_kind Repay txs) /\
    c_collateral_deposited st'
    == c_collateral_deposited st + ether_sum (of_kind Mint txs).
Proof.
  induction txs as [|tx txs IH]; intros st; cbn zeta.
  - unfold of_kind. cbn [fold_left filter ether_sum fold_right].
    repeat split; ring.
  - cbn [fold_left]. specialize (IH (extract_step st tx)). cbn zeta in IH.
    destruct IH as (H1 & H2 & H3 & H4).
    rewrite H1, H2, H3, H4, !ether_sum_of_kind_cons, extract_step_kind.
    cbn zeta. rewrite ether_sum_cons.
    destruct (kind tx); cbn [TxKind_eqb c_total_volume c_total_borrowed
      c_total_repaid c_collateral_deposited]; repeat split; ring.
Qed.


Lemma final_counts (txs : list Transaction) :
  let st := fold_left extract_step txs counters_init in
  c_borrow_count st = count_kind Borrow txs /\
  c_repayment_count st = count_kind Repay txs /\
  c_liquidation_count st = count_kind Liquidate txs /\
  c_tx_count st = Z.of_nat (length txs).
Proof.
  cbn zeta. destruct (loop_counts txs counters_init) as (H1 & H2 & H3 & H4).
  rewrite H1, H2, H3, H4. cbn [counters_init c_borrow_count c_repayment_count
    c_liquidation_count c_tx_count]. repeat split; lia.
Qed.

Lemma final_sums (txs : list Transaction) :
  let st := fold_left extract_step txs counters_init in
  c_total_volume st == ether_sum txs /\
  c_total_borrowed st == ether_sum (of_kind Borrow txs) /\
  c_total_repaid st == ether_sum (of_kind Repay txs) /\
  c_collateral_deposited st == ether_sum (of_kind Mint txs).
Proof.
  cbn zeta. destruct (loop_sums txs counters_init) as (H1 & H2 & H3 & H4).
  rewrite H1, H2, H3, H4. cbn [counters_init c_total_volume c_total_borrowed
    c_total_repaid c_collateral_deposited]. repeat split; ring.
Qed.

(** ** Values in ether *)

Lemma ether_of_nonneg (tx : Transaction) :
  (0 <= tx_value tx)%Z -> 0 <= ether_of tx.
Proof.
  intros H. unfold ether_of. apply Qle_shift_div_l; [reflexivity|].
  rewrite Qmult_0_l. change (inject_Z 0 <= inject_Z (tx_value tx)).
  rewrite <- Zle_Qle. exact H.
Qed.

Lemma ether_sum_nonneg (txs : list Transaction) :
  Forall (fun tx => (0 <= tx_value tx)%Z) txs -> 0 <= ether_sum txs.
Proof.
  induction 1 as [|tx txs Htx _ IH]; [apply Qle_refl|].
  rewrite ether_sum_cons. assert (H := ether_of_nonneg tx Htx). lra.
Qed.

Lemma of_kind_Forall (P : Transaction -> Prop) (k : TxKind)
      (txs : list Transaction) :
  Forall P txs -> Forall P (of_kind k txs).
Proof.
  intros H. apply Forall_forall. intros tx Htx.
  apply filter_In in Htx. rewrite Forall_forall in H. now apply H.
Qed.

Lemma Qpositive_true (x : Q) : Qpositive x = true <-> 0 < x.
Proof.
  unfold Qpositive. rewrite negb_true_iff.
  destruct (Qle_bool x 0) eqn:E.
  - apply Qle_bool_iff in E. split; [discriminate | intros H; lra].
  - split; [intros _|reflexivity].
    destruct (Qlt_le_dec 0 x) as [H|H]; [exact H|].
    apply Qle_bool_iff in H. congruence.
Qed.

Lemma Qpositive_false (x : Q) : Qpositive x = false <-> x <= 0.
Proof.
  destruct (Qpositive x) eqn:E.
  - apply Qpositive_true in E. split; [discriminate | intros H; lra].
  - split; [intros _|reflexivity].
    destruct (Qlt_le_dec 0 x) as [H|H]; [|exact H].
    apply Qpositive_true in H. congruence.
Qed.

Lemma activity_level_range (n : Z) :
  (0 <= n)%Z -> 0 <= inject_Z n / inject_Z (n + 1) /\
                inject_Z n / inject_Z (n + 1) < 1.
Proof.
  intros Hn.
  assert (H0 : 0 <= inject_Z n).
  { change (inject_Z 0 <= inject_Z n). rewrite <- Zle_Qle. exact Hn. }
  assert (H1 : inject_Z n < inject_Z (n + 1)) by (rewrite <- Zlt_Qlt; lia).
  assert (Hp : 0 < inject_Z (n + 1)) by lra.
  split.
  - apply Qle_shift_div_l; [exact Hp | lra].
  - apply Qlt_shift_div_r; [exact Hp | lra].
Qed.

(** ** The record built after the loop *)

Lemma count_kind_zero_nil (k : TxKind) (txs : list Transaction) :
  count_kind k txs = 0%Z -> of_kind k txs = [].
Proof.
  unfold count_kind. intros H. destruct (of_kind k txs); [reflexivity|].
  simpl length in H. lia.
Qed.

Lemma inactive_iff (txs : list Transaction) :
  let st := fold_left extract_step txs counters_init in
  (c_borrow_count st =? 0)%Z && (c_repayment_count st =? 0)%Z
  && Qeq_bool (c_collateral_deposited st) 0 = true
  <-> count_kind Borrow txs = 0%Z /\ count_kind Repay txs = 0%Z /\
      ether_sum (of_kind Mint txs) == 0.
Proof.
  cbn zeta.
  destruct (final_counts txs) as (H1 & H2 & _ & _).
  destruct (final_sums txs) as (_ & _ & _ & H4).
  rewrite !andb_true_iff, !Z.eqb_eq, Qeq_bool_iff, H1, H2, H4. tauto.
Qed.

(** The no-activity flag is 0 or 1, and it is 1 exactly when the history
    has no borrow call, no repayment call and a zero total value of mint
    calls to the protocol contracts. *)
Theorem extract_features_flag :
  forall txs wallet_address,
    let r := extract_features txs wallet_address in
    (no_compound_activity r = 1 \/ no_compound_activity r = 0) /\
    (no_compound_activity r = 1 <->
     count_kind Borrow txs = 0%Z /\ count_kind Repay txs = 0%Z /\
     ether_sum (of_kind Mint txs) == 0).
Proof.
  intros txs w. cbn zeta. rewrite <- inactive_iff. cbn zeta.
  unfold extract_features, features_of_counters.
  destruct (_ && _ && _); cbn [no_compound_activity].
  - split; [now left | tauto].
  - split; [now right|]. split; discriminate.
Qed.

(** A history without borrow call, without repayment call and with no value
    sent to mint calls gives the default protocol features, and its
    liquidation count is reported as 0 however many liquidation calls the
    history holds. *)
Theorem extract_features_inactive_defaults :
  forall txs wallet_address,
    count_kind Borrow txs = 0%Z ->
    count_kind Repay txs = 0%Z ->
    ether_sum (of_kind Mint txs) == 0 ->
    let r := extract_features txs wallet_address in
    borrow_count r = 0 /\ repayment_ratio r = 1 /\ collateral_ratio r = 1 /\
    liquidation_count r = 0 /\ no_compound_activity r = 1.
Proof.
  intros txs w Hb Hr Hm. cbn zeta.
  assert (E := proj2 (inactive_iff txs) (conj Hb (conj Hr Hm))).
  cbn zeta in E. unfold extract_features, features_of_counters.
  rewrite E. repeat split; reflexivity.
Qed.

(** Otherwise the record reports the number of borrow calls and the number
    of liquidation calls of the history, and the flag is 0. *)
Theorem extract_features_active_counts :
  forall txs wallet_address,
    ~ (count_kind Borrow txs = 0%Z /\ count_kind Repay txs = 0%Z /\
       ether_sum (of_kind Mint txs) == 0) ->
    let r := extract_features txs wallet_address in
    borrow_count r = inject_Z (count_kind Borrow txs) /\
    liquidation_count r = inject_Z (count_kind Liquidate txs) /\
    no_compound_activity r = 0.
Proof.
  intros txs w Hact. cbn zeta.
  rewrite <- inactive_iff in Hact. cbn zeta in Hact.
  destruct (final_counts txs) as (H1 & _ & H3 & _).
  unfold extract_features, features_of_counters.
  destruct (_ && _ && _); [contradiction Hact; reflexivity|].
  cbn [borrow_count liquidation_count no_compound_activity].
  rewrite H1, H3. repeat split; reflexivity.
Qed.

Lemma ether_sum_all_zero (txs : list Transaction) :
  Forall (fun tx => tx_value tx = 0%Z) txs -> ether_sum txs == 0.
Proof.
  induction 1 as [|tx txs Htx _ IH]; [reflexivity|].
  rewrite ether_sum_cons, IH. unfold ether_of. rewrite Htx. reflexivity.
Qed.

(** When no borrow call of the history carries any value (in particular
    when there is no borrow call), both ratios are exactly 1, whatever was
    repaid or deposited: the quotient is only formed for a positive total
    of borrowed value. *)
Theorem extract_features_ratios_without_borrowed_value :
  forall txs wallet_address,
    Forall (fun tx => tx_value tx = 0%Z) (of_kind Borrow txs) ->
    let r := extract_features txs wallet_address in
    repayment_ratio r = 1 /\ collateral_ratio r = 1.
Proof.
  intros txs w Hzero. cbn zeta.
  destruct (final_sums txs) as (_ & H2 & _). cbn zeta in H2.
  unfold extract_features, features_of_counters.
  set (st := fold_left extract_step txs counters_init) in *.
  assert (Hp : Qpositive (c_total_borrowed st) = false).
  { apply Qpositive_false. rewrite H2, (ether_sum_all_zero _ Hzero).
    apply Qle_refl. }
  destruct (_ && _ && _); cbn [repayment_ratio collateral_ratio];
    [|rewrite Hp]; split; reflexivity.
Qed.

Lemma extract_features_ratios_without_borrowed_value_witness :
  let r := extract_features [zero_value_borrow_call; repay_call; mint_call]
                            "0xabc" in
  repayment_ratio r = 1 /\ collateral_ratio r = 1.
Proof.
  apply (extract_features_ratios_without_borrowed_value
           [zero_value_borrow_call; repay_call; mint_call] "0xabc").
  vm_compute. repeat constructor.
Defined.

Lemma extract_step_volume (st : Counters) (tx : Transaction) :
  c_total_volume (extract_step st tx) = c_total_volume st + ether_of tx /\
  c_tx_count (extract_step st tx) = (c_tx_count st + 1)%Z.
Proof.
  rewrite extract_step_kind. cbn zeta.
  destruct (kind tx); split; reflexivity.
Qed.

Lemma loop_volume_values (txs txs' : list Transaction) :
  Forall2 (fun a b => tx_value a = tx_value b) txs txs' ->
  forall st st',
    c_total_volume st = c_total_volume st' ->
    c_tx_count st = c_tx_count st' ->
    c_total_volume (fold_left extract_step txs st)
    = c_total_volume (fold_left extract_step txs' st') /\
    c_tx_count (fold_left extract_step txs st)
    = c_tx_count (fold_left extract_step txs' st').
Proof.
  induction 1 as [|a b txs txs' Hab _ IH]; intros st st' Hv Hn;
    cbn [fold_left]; [split; assumption|].
  destruct (extract_step_volume st a) as [Ev En].
  destruct (extract_step_volume st' b) as [Ev' En'].
  apply IH.
  - rewrite Ev, Ev', Hv. unfold ether_of. now rewrite Hab.
  - rewrite En, En', Hn. reflexivity.
Qed.

(** The total volume and the activity level only depend on the values of
    the transactions, in their order: two histories with the same sequence
    of values have the same total volume and the same activity level,
    whatever the destinations and the call data are. *)
Theorem extract_features_volume_activity_from_values :
  forall txs txs' wallet_address wallet_address',
    Forall2 (fun a b => tx_value a = tx_value b) txs txs' ->
    let r := extract_features txs wallet_address in
    let r' := extract_features txs' wallet_address' in
    total_volume r = total_volume r' /\
    activity_level r = activity_level r'.
Proof.
  intros txs txs' w w' H. cbn zeta.
  destruct (loop_volume_values txs txs' H counters_init counters_init
              eq_refl eq_refl) as [Ev En].
  unfold extract_features, features_of_counters.
  do 2 destruct (_ && _ && _); cbn [total_volume activity_level];
    rewrite Ev, En; split; reflexivity.
Qed.

Lemma extract_features_volume_activity_from_values_witness :
  let r := extract_features [borrow_call; liquidation_call] "0xabc" in
  let r' := extract_features [contract_creation; zero_value_borrow_call]
                             "0xdef" in
  total_volume r = total_volume r' /\
  activity_level r = activity_level r'.
Proof.
  apply (extract_features_volume_activity_from_values
           [borrow_call; liquidation_call]
           [contract_creation; zero_value_borrow_call] "0xabc" "0xdef").
  repeat constructor.
Defined.

(** For a history whose values are not negative the record is a
    well-formed feature record: it carries the wallet address, no feature
    is negative, the activity level is below 1 and the flag is 0 or 1. *)
Theorem extract_features_well_formed :
  forall txs wallet_address,
    Forall (fun tx => (0 <= tx_value tx)%Z) txs ->
    let r := extract_features txs wallet_address in
    wallet_id r = wallet_address /\
    0 <= borrow_count r /\ 0 <= repayment_ratio r /\
    0 <= collateral_ratio r /\ 0 <= liquidation_count r /\
    0 <= total_volume r /\
    (0 <= activity_level r /\ activity_level r < 1) /\
    (no_compound_activity r = 0 \/ no_compound_activity r = 1).
Proof.
  intros txs w Hpos. cbn zeta.
  destruct (final_sums txs) as (H1 & H2 & H3 & H4). cbn zeta in *.
  destruct (final_counts txs) as (Hb & _ & Hl & Hn). cbn zeta in *.
  assert (Pv := ether_sum_nonneg _ Hpos).
  assert (Pb := ether_sum_nonneg _ (of_kind_Forall _ Borrow _ Hpos)).
  assert (Pr := ether_sum_nonneg _ (of_kind_Forall _ Repay _ Hpos)).
  assert (Pm := ether_sum_nonneg _ (of_kind_Forall _ Mint _ Hpos)).
  assert (Pa := activity_level_range (Z.of_nat (length txs)) (Zle_0_nat _)).
  unfold extract_features, features_of_counters.
  set (st := fold_left extract_step txs counters_init) in *.
  assert (Hratio : forall x, 0 <= x ->
            0 <= (if Qpositive (c_total_borrowed st)
                  then x / (c_total_borrowed st + (1 # 10000000000))
                  else 1)).
  { intros x Hx. destruct (Qpositive (c_total_borrowed st)) eqn:E;
      [|discriminate].
    apply Qpositive_true in E. apply Qle_shift_div_l; lra. }
  destruct (_ && _ && _);
    cbn [wallet_id borrow_count repayment_ratio collateral_ratio
           liquidation_count total_volume activity_level no_compound_activity];
    rewrite Hn.
  - repeat split; try discriminate; try tauto; lra.
  - split; [reflexivity|].
    split; [rewrite Hb; change (inject_Z 0 <= inject_Z (count_kind Borrow txs));
            rewrite <- Zle_Qle; apply count_kind_nonneg|].
    split; [apply Hratio; lra|]. split; [apply Hratio; lra|].
    split; [rewrite Hl;
            change (inject_Z 0 <= inject_Z (count_kind Liquidate txs));
            rewrite <- Zle_Qle; apply count_kind_nonneg|].
    split; [lra|]. split; [exact Pa | now left].
Qed.

Lemma extract_features_inactive_defaults_witness :
  let r := extract_features [liquidation_call; plain_transfer; liquidation_call]
                            "0xabc" in
  borrow_count r = 0 /\ repayment_ratio r = 1 /\ collateral_ratio r = 1 /\
  liquidation_count r = 0 /\ no_compound_activity r = 1.
Proof.
  apply (extract_features_inactive_defaults
           [liquidation_call; plain_transfer; liquidation_call] "0xabc").
  - vm_compute. reflexivity.
  - vm_compute. reflexivity.
  - vm_compute. reflexivity.
Defined.

Lemma extract_features_active_counts_witness :
  let r := extract_features [borrow_call; liquidation_call; plain_transfer]
                            "0xabc" in
  borrow_count r
  = inject_Z (count_kind Borrow [borrow_call; liquidation_call; plain_transfer])
  /\ liquidation_count r
     = inject_Z (count_kind Liquidate
                   [borrow_call; liquidation_call; plain_transfer])
  /\ no_compound_activity r = 0.
Proof.
  apply (extract_features_active_counts
           [borrow_call; liquidation_call; plain_transfer] "0xabc").
  intros (H & _). vm_compute in H. discriminate H.
Defined.

Lemma extract_features_well_formed_witness :
  let r := extract_features [borrow_call; repay_call; mint_call; plain_transfer]
                            "0xabc" in
  wallet_id r = "0xabc"%string /\
  0 <= borrow_count r /\ 0 <= repayment_ratio r /\
  0 <= collateral_ratio r /\ 0 <= liquidation_count r /\
  0 <= total_volume r /\
  (0 <= activity_level r /\ activity_level r < 1) /\
  (no_compound_activity r = 0 \/ no_compound_activity r = 1).
Proof.
  apply (extract_features_well_formed
           [borrow_call; repay_call; mint_call; plain_transfer] "0xabc").
  repeat constructor; vm_compute; discriminate.
Defined.

(** ** Transactions outside the protocol *)

Lemma extract_step_same (a b : Counters) (tx : Transaction) :
  same_protocol_counters a b ->
  same_protocol_counters (extract_step a tx) (extract_step b tx).
Proof.
  unfold same_protocol_counters. intros (H1 & H2 & H3 & H4 & H5 & H6).
  rewrite !extract_step_kind. cbn zeta.
  destruct (kind tx);
    cbn [c_borrow_count c_repayment_count c_total_borrowed c_total_repaid
           c_collateral_deposited c_liquidation_count];
    rewrite H1, H2, H3, H4, H5, H6; repeat split; reflexivity.
Qed.

Lemma extract_step_outside (a : Counters) (tx : Transaction) :
  to_compound tx = false ->
  same_protocol_counters (extract_step a tx) a.
Proof.
  intros H. unfold extract_step. fold (to_compound tx). rewrite H.
  unfold same_protocol_counters. repeat split; reflexivity.
Qed.

Lemma same_protocol_counters_trans (a b c : Counters) :
  same_protocol_counters a b -> same_protocol_counters b c ->
  same_protocol_counters a c.
Proof.
  unfold same_protocol_counters.
  intros (H1 & H2 & H3 & H4 & H5 & H6) (G1 & G2 & G3 & G4 & G5 & G6).
  repeat split; congruence.
Qed.

Lemma loop_filter_to_compound (txs : list Transaction) :
  forall a b,
    same_protocol_counters a b ->
    same_protocol_counters
      (fold_left extract_step txs a)
      (fold_left extract_step (filter to_compound txs) b).
Proof.
  induction txs as [|tx txs IH]; intros a b H; cbn [fold_left filter].
  - exact H.
  - destruct (to_compound tx) eqn:E; cbn [fold_left].
    + apply IH. now apply extract_step_same.
    + apply IH. eapply same_protocol_counters_trans; [|exact H].
      now apply extract_step_outside.
Qed.

(** Transactions that are not sent to one of the protocol contracts only
    count for the total volume and for the activity level: the five
    protocol features are those of the history restricted to the
    transactions sent to the protocol contracts. *)
Theorem extract_features_protocol_transactions_only :
  forall txs wallet_address,
    let r := extract_features txs wallet_address in
    let r' := extract_features (filter to_compound txs) wallet_address in
    borrow_count r = borrow_count r' /\
    repayment_ratio r = repayment_ratio r' /\
    collateral_ratio r = collateral_ratio r' /\
    liquidation_count r = liquidation_count r' /\
    no_compound_activity r = no_compound_activity r'.
Proof.
  intros txs w. cbn zeta. unfold extract_features.
  assert (H : same_protocol_counters counters_init counters_init)
    by (unfold same_protocol_counters; repeat split; reflexivity).
  apply (loop_filter_to_compound txs) in H.
  destruct H as (H1 & H2 & H3 & H4 & H5 & H6).
  unfold features_of_counters. rewrite H1, H2, H3, H4, H5, H6.
  destruct (_ && _ && _); repeat split; reflexivity.
Qed.

(** ** Letter case *)

Lemma lower_empty (s : string) : lower s = EmptyString -> s = EmptyString.
Proof. destruct s; [reflexivity | discriminate]. Qed.

Lemma to_address_of_case (a b : Transaction) :
  option_map lower (tx_to a) = option_map lower (tx_to b) ->
  to_address_of a = to_address_of b.
Proof.
  unfold to_address_of.
  destruct (tx_to a) as [x|], (tx_to b) as [y|]; cbn [option_map];
    intros H; try discriminate; [|reflexivity].
  injection H as H. destruct x as [|c x], y as [|d y];
    try reflexivity; try discriminate. exact H.
Qed.

Lemma extract_step_case (st : Counters) (a b : Transaction) :
  same_up_to_case a b -> extract_step st a = extract_step st b.
Proof.
  intros (Hv & Ht & Hi). unfold extract_step, ether_of.
  rewrite (to_address_of_case a b Ht), Hv, Hi. reflexivity.
Qed.

(** The classification does not depend on the letter case of the
    destination address or of the call data: two histories that differ
    only by letter case give the same record. *)
Theorem extract_features_case_insensitive :
  forall txs txs' wallet_address,
    Forall2 same_up_to_case txs txs' ->
    extract_features txs wallet_address = extract_features txs' wallet_address.
Proof.
  intros txs txs' w H. unfold extract_features. f_equal.
  generalize counters_init.
  induction H as [|a b txs txs' Hab _ IH]; intros st; cbn [fold_left].
  - reflexivity.
  - rewrite (extract_step_case st a b Hab). apply IH.
Qed.

Lemma extract_features_case_insensitive_witness :
  extract_features
    [mkTransaction 2000000000000000000
                   (Some "0X4DDC2D193948926D02F9B1FE9E1DAA0718270ED5"%string)
                   "0X69328DEC"]
    "0xabc"
  = extract_features
      [mkTransaction 2000000000000000000
                     (Some "0x4ddc2d193948926d02f9b1fe9e1daa0718270ed5"%string)
                     "0x69328dec"]
      "0xabc".
Proof.
  apply extract_features_case_insensitive.
  constructor; [|constructor].
  repeat split; reflexivity.
Defined.

(** * The indexing service and the orchestrator *)

Lemma fetch_transactions_failure (requests_get : string -> Response)
      (wallet_address : string) :
  status_code (requests_get wallet_address) <> 200%Z \/
  api_status (json (requests_get wallet_address)) <> "1"%string ->
  snd (fetch_transactions requests_get wallet_address) = [] /\
  length (fst (fetch_transactions requests_get wallet_address)) = 1%nat.
Proof.
  intros H. unfold fetch_transactions.
  destruct (Z.eqb_spec (status_code (requests_get wallet_address)) 200)
    as [E|E]; [|split; reflexivity].
  destruct (String.eqb_spec
              (api_status (json (requests_get wallet_address))) "1")
    as [E'|E']; [|split; reflexivity].
  destruct H; contradiction.
Qed.

(** When the service answers with an HTTP status other than 200, or with
    an API status other than ["1"], the fetch does not fail: it prints one
    line and returns no transaction, and the wallet then gets the record of
    a wallet without history. *)
Theorem fetch_failure_gives_empty_history :
  forall requests_get wallet_address,
    status_code (requests_get wallet_address) <> 200%Z \/
    api_status (json (requests_get wallet_address)) <> "1"%string ->
    let fetched := fetch_transactions requests_get wallet_address in
    snd fetched = [] /\
    length (fst fetched) = 1%nat /\
    extract_features (snd fetched) wallet_address
    = mkFeatureRecord wallet_address 0 1 1 0 0 0 1.
Proof.
  intros rg w H. cbn zeta.
  destruct (fetch_transactions_failure rg w H) as [E1 E2].
  rewrite E1. split; [reflexivity|]. split; [exact E2 | reflexivity].
Qed.

Lemma fetch_failure_gives_empty_history_witness :
  let fetched :=
    fetch_transactions
      (fun _ => mkResponse 200 (mkApiData "0" "No transactions found" []))
      "0xabc" in
  snd fetched = [] /\
  length (fst fetched) = 1%nat /\
  extract_features (snd fetched) "0xabc"
  = mkFeatureRecord "0xabc" 0 1 1 0 0 0 1.
Proof.
  apply (fetch_failure_gives_empty_history
           (fun _ => mkResponse 200 (mkApiData "0" "No transactions found" []))
           "0xabc").
  right. discriminate.
Defined.


Lemma collect_features_from (requests_get : string -> Response)
      (wallets : list string) :
  forall acc,
    snd (fold_left
           (fun acc wallet =>
              let fetched := fetch_transactions requests_get wallet in
              let features := extract_features (snd fetched) wallet in
              (fst acc ++ [String.append "Processing wallet: " wallet]
                   ++ fst fetched,
               snd acc ++ [features]))
           wallets acc)
    = snd acc
      ++ map (fun w =>
                extract_features (snd (fetch_transactions requests_get w)) w)
             wallets.
Proof.
  induction wallets as [|w wallets IH]; intros acc; cbn [fold_left map].
  - now rewrite app_nil_r.
  - rewrite IH. cbn [snd]. rewrite <- app_assoc. reflexivity.
Qed.

Lemma collect_features_list (requests_get : string -> Response)
      (wallets : list string) :
  snd (collect_features requests_get wallets)
  = map (fun w =>
           extract_features (snd (fetch_transactions requests_get w)) w)
        wallets.
Proof. unfold collect_features. now rewrite collect_features_from. Qed.




Lemma wallet_addresses_cons :
  exists w ws, wallet_addresses = w :: ws.
Proof. do 2 eexists. reflexivity. Qed.

(** ** Scores of a non-empty frame *)

Lemma final_score_at_least_100 (s : MinMaxScaler.t) (lo hi : Q)
      (r : FeatureRecord) :
  lo <= raw_of s r -> raw_of s r <= hi ->
  (100 <= final_score s lo hi r <= 1000)%Z.
Proof.
  intros Hlo Hhi. rewrite final_score_floor. unfold scaled.
  destruct (Qeq_bool hi lo) eqn:E.
  - change (Qfloor (np_clip 0 1000 (1 * 500))) with 500%Z. lia.
  - apply Qeq_bool_neq in E.
    assert (B := scaled_bounds lo hi (raw_of s r) Hlo Hhi E).
    rewrite np_clip_id by (split; lra). split.
    + apply (Qfloor_resp_le 100 _ (proj1 B)).
    + apply (Qfloor_resp_le _ 1000 (proj2 B)).
Qed.

Lemma calculate_risk_score_at_least_100
      (r0 : FeatureRecord) (rs : list FeatureRecord) (sc : option (list Z)) :
  exists out,
    snd (calculate_risk_score (mkDataFrame (r0 :: rs) sc)) = Ok out /\
    map fst out = map wallet_id (r0 :: rs) /\
    Forall (fun p => (100 <= snd p <= 1000)%Z) out.
Proof.
  destruct (calculate_risk_score_nonempty r0 rs sc)
    as (s & lo & hi & _ & Hlo & Hhi & E).
  rewrite E. eexists. split; [reflexivity|].
  split; [rewrite map_map; reflexivity|].
  apply Forall_forall. intros p Hp. apply in_map_iff in Hp.
  destruct Hp as (x & <- & Hx). cbn [snd].
  assert (Hin : In (raw_of s x) (raw_of s r0 :: map (raw_of s) rs)).
  { change (raw_of s r0 :: map (raw_of s) rs)
      with (map (raw_of s) (r0 :: rs)). now apply in_map. }
  subst lo hi. apply final_score_at_least_100;
    [now apply amin_lower | now apply amax_upper].
Qed.

(** Every score of a non-empty frame is between 100 and 1000: the lower
    part [0, 100) of the reporting range is never used. *)
Theorem scores_between_100_and_1000 :
  forall r rs sc, exists out,
    snd (calculate_risk_score (mkDataFrame (r :: rs) sc)) = Ok out /\
    Forall (fun p => (100 <= snd p <= 1000)%Z) out.
Proof.
  intros r rs sc.
  destruct (calculate_risk_score_at_least_100 r rs sc) as (out & E & _ & H).
  exists out. split; assumption.
Qed.


Lemma identical_rows_all_500
      (r0 : FeatureRecord) (rs : list FeatureRecord) (sc : option (list Z)) :
  Forall (fun r' => forall c, get r' c == get r0 c) rs ->
  snd (calculate_risk_score (mkDataFrame (r0 :: rs) sc))
  = Ok (map (fun x => (wallet_id x, 500%Z)) (r0 :: rs)).
Proof.
  intros Hall.
  destruct (calculate_risk_score_nonempty r0 rs sc)
    as (s & lo & hi & Hfit & Hlo & Hhi & E).
  rewrite E. cbn [snd]. f_equal. apply map_ext_in. intros x Hx. f_equal.
  assert (Hraw := identical_rows_raw_zero r0 rs s Hfit Hall).
  assert (Hin : forall y, In y (map (raw_of s) (r0 :: rs)) -> y == 0).
  { intros y Hy. apply in_map_iff in Hy.
    destruct Hy as (z & <- & Hz). now apply Hraw. }
  assert (E0 : Qeq_bool hi lo = true).
  { apply Qeq_eq_bool. subst lo hi.
    rewrite (Hin _ (amin_In _ _)), (Hin _ (amax_In _ _)). reflexivity. }
  unfold final_score, scaled. rewrite E0. reflexivity.
Qed.

(** When the service fails for every listed wallet, [main] still
    completes, and it saves the score 500 for every wallet. *)
Theorem main_service_failure_all_500 :
  forall requests_get,
    (forall w, In w wallet_addresses ->
               status_code (requests_get w) <> 200%Z \/
               api_status (json (requests_get w)) <> "1"%string) ->
    snd (main requests_get)
    = Ok (map (fun w => (w, 500%Z)) wallet_addresses).
Proof.
  intros rg Hfail. unfold main. rewrite collect_features_list.
  rewrite (map_ext_in _ empty_history_record).
  2:{ intros w Hw.
      destruct (fetch_transactions_failure rg w (Hfail w Hw)) as [E _].
      rewrite E. reflexivity. }
  destruct wallet_addresses_cons as (w0 & ws & Ews). rewrite Ews.
  cbn [map]. unfold DataFrame_of.
  rewrite identical_rows_all_500.
  - cbn [map wallet_id empty_history_record]. rewrite map_map. reflexivity.
  - apply Forall_forall. intros r Hr. apply in_map_iff in Hr.
    destruct Hr as (w & <- & _). intros c. destruct c; reflexivity.
Qed.

Lemma main_service_failure_all_500_witness :
  snd (main service_down) = Ok (map (fun w => (w, 500%Z)) wallet_addresses).
Proof.
  apply (main_service_failure_all_500 service_down).
  intros w _. left. discriminate.
Defined.

(** ** Scores as a function of the features *)

Lemma final_score_same_raw (s : MinMaxScaler.t) (lo hi : Q)
      (a b : FeatureRecord) :
  raw_of s a == raw_of s b -> final_score s lo hi a = final_score s lo hi b.
Proof.
  intros E. rewrite !final_score_floor. apply Qfloor_comp.
  rewrite E. reflexivity.
Qed.

(** Two wallets of a frame with the same seven features receive the same
    score. *)
Theorem equal_features_equal_scores :
  forall features_df i j a b,
    nth_error (rows features_df) i = Some a ->
    nth_error (rows features_df) j = Some b ->
    (forall c, get a c == get b c) ->
    exists out sc,
      snd (calculate_risk_score features_df) = Ok out /\
      nth_error out i = Some (wallet_id a, sc) /\
      nth_error out j = Some (wallet_id b, sc).
Proof.
  intros [rws sc] i j a b Ha Hb Hsame. cbn [rows] in *.
  destruct rws as [|r0 rs]; [destruct i; discriminate|].
  destruct (calculate_risk_score_nonempty r0 rs sc)
    as (s & lo & hi & Hfit & Hlo & Hhi & E).
  rewrite E. cbn [snd].
  exists (map (fun r => (wallet_id r, final_score s lo hi r)) (r0 :: rs)),
    (final_score s lo hi a).
  split; [reflexivity|].
  split;
    [apply (map_nth_error (fun r => (wallet_id r, final_score s lo hi r))
              _ _ Ha)|].
  rewrite (final_score_same_raw s lo hi a b).
  - apply (map_nth_error (fun r => (wallet_id r, final_score s lo hi r))
             _ _ Hb).
  - unfold raw_of. apply raw_score_ext. intros c.
    apply normalized_ext, Hsame.
Qed.

Lemma equal_features_equal_scores_witness :
  exists out sc,
    snd (calculate_risk_score
           (DataFrame_of [W1; W2; mkFeatureRecord "W5" 0 1 1 0 0 0 1])) = Ok out /\
    nth_error out 0 = Some ("W1"%string, sc) /\
    nth_error out 2 = Some ("W5"%string, sc).
Proof.
  apply (equal_features_equal_scores
           (DataFrame_of [W1; W2; mkFeatureRecord "W5" 0 1 1 0 0 0 1])
           0 2 W1 (mkFeatureRecord "W5" 0 1 1 0 0 0 1)).
  - reflexivity.
  - reflexivity.
  - intros c. destruct c; reflexivity.
Defined.

Ltac other_columns H :=
  try (assert (H_bc := H Col.borrow_count ltac:(discriminate)));
  try (assert (H_rr := H Col.repayment_ratio ltac:(discriminate)));
  try (assert (H_cr := H Col.collateral_ratio ltac:(discriminate)));
  try (assert (H_lc := H Col.liquidation_count ltac:(discriminate)));
  try (assert (H_tv := H Col.total_volume ltac:(discriminate)));
  try (assert (H_al := H Col.activity_level ltac:(discriminate)));
  try (assert (H_nc := H Col.no_compound_activity ltac:(discriminate))).

Lemma raw_score_one_column (r r' : Row) (c : Col.t) (w : Q) :
  (forall c', c' <> c -> r c' == r' c') ->
  r c <= r' c ->
  In (c, w) weights ->
  (0 < w -> raw_score r <= raw_score r') /\
  (w < 0 -> raw_score r' <= raw_score r).
Proof.
  intros H Hc Hin. rewrite !raw_score_unfold.
  unfold weights in Hin. cbn [In] in Hin.
  destruct c; other_columns H;
    repeat (destruct Hin as [Hin|Hin]; [try discriminate Hin|]);
    try contradiction;
    injection Hin as <-; split; intros Hw; lra.
Qed.

(** Of two wallets of a frame that agree on every feature but one, the
    wallet with the larger value of that feature scores at least as much
    as the other when the weight of the feature is positive, and at most
    as much when the weight is negative. *)
Theorem score_monotone_in_each_feature :
  forall features_df i j a b c w,
    nth_error (rows features_df) i = Some a ->
    nth_error (rows features_df) j = Some b ->
    (forall c', c' <> c -> get a c' == get b c') ->
    get a c <= get b c ->
    In (c, w) weights ->
    exists out sa sb,
      snd (calculate_risk_score features_df) = Ok out /\
      nth_error out i = Some (wallet_id a, sa) /\
      nth_error out j = Some (wallet_id b, sb) /\
      (0 < w -> (sa <= sb)%Z) /\
      (w < 0 -> (sb <= sa)%Z).
Proof.
  intros [rws sc] i j a b c w Ha Hb Hsame Hc Hw. cbn [rows] in *.
  destruct rws as [|r0 rs]; [destruct i; discriminate|].
  destruct (calculate_risk_score_nonempty r0 rs sc)
    as (s & lo & hi & Hfit & Hlo & Hhi & E).
  rewrite E. cbn [snd].
  exists (map (fun r => (wallet_id r, final_score s lo hi r)) (r0 :: rs)),
    (final_score s lo hi a), (final_score s lo hi b).
  split; [reflexivity|].
  split;
    [apply (map_nth_error (fun r => (wallet_id r, final_score s lo hi r))
              _ _ Ha)|].
  split;
    [apply (map_nth_error (fun r => (wallet_id r, final_score s lo hi r))
              _ _ Hb)|].
  assert (Hle : lo <= hi) by (subst lo hi; apply amin_le_amax).
  destruct (raw_score_one_column
              (normalized s (get a)) (normalized s (get b)) c w) as [Hp Hn].
  - intros c' Hc'. apply normalized_ext. now apply Hsame.
  - apply (normalized_mono _ s Hfit). exact Hc.
  - exact Hw.
  - split; intros Hs; apply final_score_mono; auto.
Qed.

Lemma score_monotone_in_each_feature_witness :
  exists out sa sb,
    snd (calculate_risk_score repaid_batch) = Ok out /\
    nth_error out 1 = Some ("W2"%string, sa) /\
    nth_error out 3 = Some ("W6"%string, sb) /\
    (0 < 0.3 -> (sa <= sb)%Z) /\
    (0.3 < 0 -> (sb <= sa)%Z).
Proof.
  apply (score_monotone_in_each_feature
           repaid_batch 1 3 W2 W6 Col.repayment_ratio 0.3).
  - reflexivity.
  - reflexivity.
  - intros c Hc. destruct c; try reflexivity. contradiction Hc. reflexivity.
  - vm_compute. discriminate.
  - right. left. reflexivity.
Defined.

(** ** The two ends of the range *)

Lemma final_score_at_min (s : MinMaxScaler.t) (lo hi : Q) (r : FeatureRecord) :
  ~ hi == lo -> raw_of s r == lo -> final_score s lo hi r = 100%Z.
Proof.
  intros Hne E. rewrite final_score_floor. unfold scaled.
  destruct (Qeq_bool hi lo) eqn:B; [apply Qeq_bool_eq in B; contradiction|].
  assert (Ev : (raw_of s r - lo) / (hi - lo) * 900 + 100 == 100).
  { rewrite E. field. intros H. apply Hne. lra. }
  rewrite Ev. reflexivity.
Qed.

Lemma final_score_at_max (s : MinMaxScaler.t) (lo hi : Q) (r : FeatureRecord) :
  ~ hi == lo -> raw_of s r == hi -> final_score s lo hi r = 1000%Z.
Proof.
  intros Hne E. rewrite final_score_floor. unfold scaled.
  destruct (Qeq_bool hi lo) eqn:B; [apply Qeq_bool_eq in B; contradiction|].
  assert (Ev : (raw_of s r - lo) / (hi - lo) * 900 + 100 == 1000).
  { rewrite E. field. intros H. apply Hne. lra. }
  rewrite Ev. reflexivity.
Qed.

(** The scores of a non-empty frame are either all 500, or they include
    both a wallet scored 100 and a wallet scored 1000: scores only rank
    the wallets of one frame against each other. *)
Theorem scores_all_500_or_full_range :
  forall r rs sc, exists out,
    snd (calculate_risk_score (mkDataFrame (r :: rs) sc)) = Ok out /\
    (Forall (fun p => snd p = 500%Z) out \/
     (exists w, In (w, 100%Z) out) /\ (exists w, In (w, 1000%Z) out)).
Proof.
  intros r rs sc.
  destruct (calculate_risk_score_nonempty r rs sc)
    as (s & lo & hi & _ & Hlo & Hhi & E).
  rewrite E. eexists. split; [reflexivity|].
  destruct (Qeq_bool hi lo) eqn:B.
  - left. apply Forall_forall. intros p Hp. apply in_map_iff in Hp.
    destruct Hp as (x & <- & _). cbn [snd].
    unfold final_score, scaled. rewrite B. reflexivity.
  - right. apply Qeq_bool_neq in B.
    assert (Hmin : In lo (map (raw_of s) (r :: rs)))
      by (subst lo; apply amin_In).
    assert (Hmax : In hi (map (raw_of s) (r :: rs)))
      by (subst hi; apply amax_In).
    apply in_map_iff in Hmin. destruct Hmin as (x & Ex & Hx).
    apply in_map_iff in Hmax. destruct Hmax as (y & Ey & Hy).
    split.
    + exists (wallet_id x).
      rewrite <- (final_score_at_min s lo hi x B) by (rewrite Ex; reflexivity).
      apply (in_map (fun r => (wallet_id r, final_score s lo hi r)) _ _ Hx).
    + exists (wallet_id y).
      rewrite <- (final_score_at_max s lo hi y B) by (rewrite Ey; reflexivity).
      apply (in_map (fun r => (wallet_id r, final_score s lo hi r)) _ _ Hy).
Qed.
